(** * Stopwatch state engine: a shallow embedding of [StopwatchService]

  The development follows [src/stopwatch/stopwatch.service.ts] and
  [src/stopwatch/entities/stopwatch.entity.ts].  Service methods are
  computations in a small state-and-exception monad [Eff] over a [World]
  that holds the rows of the [stopwatch] table, the identifier sequence
  of the store and the wall clock read by [new Date()].

  Numbers: identifiers, [elapsed] and instants (milliseconds since the
  epoch, what [Date.getTime()] returns) are integers.  The one division of
  the source, [(currentTime - startTime) / 1000], is taken in exact
  rationals before [Math.floor]; double rounding is not modelled. *)

From Stdlib Require Import ZArith QArith Qround.
From stdpp Require Import gmap strings list sorting.

Local Open Scope Z_scope.

(** ** Data model *)

(** An instant, as [Date.getTime()] gives it. *)
Definition Instant : Type := Z.

Module Stopwatch.
(** Modelled from the spec: [GeneralEntity] (common/entities/general.entity)
    is the base class of the entity; it contributes the store-assigned
    [id] and the soft-delete marker [deletedAt].  The other four columns
    are the ones declared in stopwatch.entity.ts. *)
Record t : Type := mk {
  id : Z;
  deletedAt : option Instant;
  name : string;
  isRunning : bool;
  elapsed : Z;
  startTime : option Instant
}.

Definition set_isRunning (b : bool) (s : t) : t :=
  mk (id s) (deletedAt s) (name s) b (elapsed s) (startTime s).
Definition set_elapsed (e : Z) (s : t) : t :=
  mk (id s) (deletedAt s) (name s) (isRunning s) e (startTime s).
Definition set_startTime (d : option Instant) (s : t) : t :=
  mk (id s) (deletedAt s) (name s) (isRunning s) (elapsed s) d.
Definition set_name (n : string) (s : t) : t :=
  mk (id s) (deletedAt s) n (isRunning s) (elapsed s) (startTime s).
Definition set_deletedAt (d : option Instant) (s : t) : t :=
  mk (id s) d (name s) (isRunning s) (elapsed s) (startTime s).
End Stopwatch.
Abbreviation Stopwatch := Stopwatch.t.

Module StopwatchDto.
Record t : Type := mk {
  id : Z;
  name : string;
  isRunning : bool;
  elapsed : Z
}.
End StopwatchDto.
Abbreviation StopwatchDto := StopwatchDto.t.

Module CreateStopwatchDto.
Record t : Type := mk { name : string }.
End CreateStopwatchDto.
Abbreviation CreateStopwatchDto := CreateStopwatchDto.t.

Module UpdateStopwatchDto.
(** Both properties are optional: [None] is a key absent from the body. *)
Record t : Type := mk {
  name : option string;
  elapsed : option Z
}.
End UpdateStopwatchDto.
Abbreviation UpdateStopwatchDto := UpdateStopwatchDto.t.

(** The two exceptions the service throws (their messages are not modelled). *)
Inductive HttpException : Type :=
| NotFoundException
| BadRequestException.

(** ** The world and the effect monad *)

Record World : Type := mkWorld {
  table : list Stopwatch;     (* rows of the [stopwatch] table *)
  sequence : Z;               (* last identifier handed out by the store *)
  clock : nat → Instant;      (* the n-th reading of the wall clock *)
  reads : nat                 (* readings consumed so far *)
}.

Definition set_table (rows : list Stopwatch) (w : World) : World :=
  mkWorld rows (sequence w) (clock w) (reads w).
Definition set_sequence (n : Z) (w : World) : World :=
  mkWorld (table w) n (clock w) (reads w).
Definition tick (w : World) : World :=
  mkWorld (table w) (sequence w) (clock w) (S (reads w)).

(** The instant the next clock reading returns. *)
Definition upcoming (w : World) : Instant := clock w (reads w).

Definition Eff (A : Type) : Type := World → (HttpException + A) * World.

Definition run {A} (m : Eff A) (w : World) : (HttpException + A) * World := m w.

Global Instance Eff_ret : MRet Eff := λ A a w, (inr a, w).
Global Instance Eff_bind : MBind Eff := λ A B f m w,
  match m w with
  | (inl e, w') => (inl e, w')
  | (inr a, w') => f a w'
  end.
Global Instance Eff_fmap : FMap Eff := λ A B f m w,
  match m w with
  | (inl e, w') => (inl e, w')
  | (inr a, w') => (inr (f a), w')
  end.

Definition throw {A} (e : HttpException) : Eff A := λ w, (inl e, w).

(** [new Date()]: one reading of the clock. *)
Definition newDate : Eff Instant := λ w, (inr (upcoming w), tick w).

(** ** The record store ([Repository<Stopwatch>]) *)

Module Repository.
Definition live (s : Stopwatch) : bool :=
  match Stopwatch.deletedAt s with None => true | Some _ => false end.

Definition hasId (id : Z) (s : Stopwatch) : bool := Stopwatch.id s =? id.

Definition byId (a b : Stopwatch) : Prop := Stopwatch.id a ≤ Stopwatch.id b.

Global Instance byId_dec : RelDecision byId.
Proof. intros a b. unfold byId. apply _. Defined.

(** The first live row carrying the identifier. *)
Definition lookup (id : Z) (rows : list Stopwatch) : option Stopwatch :=
  List.find (λ s, hasId id s && live s) rows.

(** [find({ order: { id: 'ASC' } })]: soft-deleted rows are left out. *)
Definition find : Eff (list Stopwatch) := λ w,
  (inr (merge_sort byId (List.filter live (table w))), w).

(** [findOne({ where: { id } })]. *)
Definition findOne (id : Z) : Eff (option Stopwatch) := λ w,
  (inr (lookup id (table w)), w).

(** [save] of an object without an identifier: INSERT, with the column
    defaults of the entity ([is_running] false, [elapsed] 0, [start_time]
    and the soft-delete marker NULL) and the next value of the sequence. *)
Definition insert (dto : CreateStopwatchDto) : Eff Stopwatch := λ w,
  let id := sequence w + 1 in
  let row := Stopwatch.mk id None (CreateStopwatchDto.name dto) false 0 None in
  (inr row, set_sequence id (set_table (table w ++ [row]) w)).

(** [save] of an object that carries its identifier: UPDATE of the rows
    with that identifier when there is one, INSERT otherwise. *)
Definition replaceRow (s : Stopwatch) (rows : list Stopwatch) : list Stopwatch :=
  map (λ r, if hasId (Stopwatch.id s) r then s else r) rows.

Definition save (s : Stopwatch) : Eff Stopwatch := λ w,
  let rows := if existsb (hasId (Stopwatch.id s)) (table w)
              then replaceRow s (table w)
              else table w ++ [s] in
  (inr s, set_table rows w).

(** [softDelete({ id })]: stamps the rows with that identifier; the stamp
    is one more reading of the clock. *)
Definition stampRows (id : Z) (at_ : Instant) (rows : list Stopwatch) : list Stopwatch :=
  map (λ r, if hasId id r then Stopwatch.set_deletedAt (Some at_) r else r) rows.

Definition softDelete (id : Z) : Eff unit := λ w,
  (inr tt, tick (set_table (stampRows id (upcoming w) (table w)) w)).
End Repository.

(** ** The service *)

Module StopwatchService.
(** JavaScript truthiness of an optional number (the left operand of [&&]). *)
Definition truthy (x : option Z) : bool :=
  match x with
  | Some n => negb (n =? 0)
  | None => false
  end.

Definition calculateElapsed (stopwatch : Stopwatch) : Eff Z :=
  if negb (Stopwatch.isRunning stopwatch) then
    mret (Stopwatch.elapsed stopwatch)
  else
    currentTime ← newDate;
    let startTime := default currentTime (Stopwatch.startTime stopwatch) in
    let timeDifference := (inject_Z (currentTime - startTime) / inject_Z 1000)%Q in
    mret (Qfloor (inject_Z (Stopwatch.elapsed stopwatch) + timeDifference)%Q).

Definition toDto (stopwatch : Stopwatch) : Eff StopwatchDto :=
  elapsed ← calculateElapsed stopwatch;
  mret (StopwatchDto.mk (Stopwatch.id stopwatch) (Stopwatch.name stopwatch)
          (Stopwatch.isRunning stopwatch) elapsed).

Definition findAll : Eff (list StopwatchDto) :=
  stopwatches ← Repository.find;
  mapM toDto stopwatches.

Definition create (createStopwatchDto : CreateStopwatchDto) : Eff StopwatchDto :=
  saved ← Repository.insert createStopwatchDto;
  toDto saved.

Definition start (id : Z) : Eff StopwatchDto :=
  found ← Repository.findOne id;
  match found with
  | None => throw NotFoundException
  | Some stopwatch =>
      if Stopwatch.isRunning stopwatch then throw BadRequestException
      else
        now ← newDate;
        saved ← Repository.save
                  (Stopwatch.set_startTime (Some now)
                     (Stopwatch.set_isRunning true stopwatch));
        toDto saved
  end.

Definition stop (id : Z) : Eff StopwatchDto :=
  found ← Repository.findOne id;
  match found with
  | None => throw NotFoundException
  | Some stopwatch =>
      if negb (Stopwatch.isRunning stopwatch) then throw BadRequestException
      else
        elapsed ← calculateElapsed stopwatch;
        saved ← Repository.save
                  (Stopwatch.set_startTime None
                     (Stopwatch.set_isRunning false
                        (Stopwatch.set_elapsed elapsed stopwatch)));
        toDto saved
  end.

(** [{ ...stopwatch, ...updateDto }]: the keys present in the patch win. *)
Definition spread (stopwatch : Stopwatch) (updateDto : UpdateStopwatchDto) : Stopwatch :=
  let named := match UpdateStopwatchDto.name updateDto with
               | Some n => Stopwatch.set_name n stopwatch
               | None => stopwatch
               end in
  match UpdateStopwatchDto.elapsed updateDto with
  | Some e => Stopwatch.set_elapsed e named
  | None => named
  end.

Definition update (id : Z) (updateDto : UpdateStopwatchDto) : Eff StopwatchDto :=
  found ← Repository.findOne id;
  match found with
  | None => throw NotFoundException
  | Some stopwatch =>
      if truthy (UpdateStopwatchDto.elapsed updateDto) && Stopwatch.isRunning stopwatch
      then throw BadRequestException
      else
        saved ← Repository.save (spread stopwatch updateDto);
        toDto saved
  end.

Definition delete (id : Z) : Eff string :=
  found ← Repository.findOne id;
  match found with
  | None => throw NotFoundException
  | Some stopwatch =>
      if Stopwatch.isRunning stopwatch then throw BadRequestException
      else
        _ ← Repository.softDelete id;
        mret "ok"%string
  end.
End StopwatchService.

Import StopwatchService.

(** ** Vocabulary of the properties *)

(** Whole seconds from [since] to [now], rounded down. *)
Definition secondsBetween (since now : Instant) : Z := (now - since) / 1000.

(** The instant a running row counts from at reading [now]. *)
Definition runStart (now : Instant) (s : Stopwatch) : Instant :=
  default now (Stopwatch.startTime s).

(** The row after a start at [now], and after a stop that stores [e]. *)
Definition started (now : Instant) (s : Stopwatch) : Stopwatch :=
  Stopwatch.set_startTime (Some now) (Stopwatch.set_isRunning true s).
Definition stopped (e : Z) (s : Stopwatch) : Stopwatch :=
  Stopwatch.set_startTime None
    (Stopwatch.set_isRunning false (Stopwatch.set_elapsed e s)).

(** The effective elapsed time of a row at reading [now]. *)
Definition effective (now : Instant) (s : Stopwatch) : Z :=
  if Stopwatch.isRunning s
  then Stopwatch.elapsed s + secondsBetween (runStart now s) now
  else Stopwatch.elapsed s.

(** The view of a row whose effective elapsed time is [e]. *)
Definition viewOf (e : Z) (s : Stopwatch) : StopwatchDto :=
  StopwatchDto.mk (Stopwatch.id s) (Stopwatch.name s) (Stopwatch.isRunning s) e.

(** The stored [elapsed] of the live row with identifier [k], if any. *)
Definition storedElapsed (k : Z) (w : World) : option Z :=
  Stopwatch.elapsed <$> Repository.lookup k (table w).

(** [isRunning] holds exactly when [startTime] is set. *)
Definition consistent (s : Stopwatch) : Prop :=
  Stopwatch.isRunning s = true ↔ Stopwatch.startTime s ≠ None.

Definition invariant (w : World) : Prop := Forall consistent (table w).

(** Every identifier in the table came out of the sequence. *)
Definition idsBounded (w : World) : Prop :=
  Forall (λ s, Stopwatch.id s ≤ sequence w) (table w).

(** The requests the engine serves, and the world each one leaves behind. *)
Inductive Operation : Type :=
  | FindAll
  | Create (dto : CreateStopwatchDto)
  | Start (id : Z)
  | Stop (id : Z)
  | Update (id : Z) (dto : UpdateStopwatchDto)
  | Delete (id : Z).

Definition perform (op : Operation) (w : World) : World :=
  match op with
  | FindAll => snd (run findAll w)
  | Create dto => snd (run (create dto) w)
  | Start id => snd (run (start id) w)
  | Stop id => snd (run (stop id) w)
  | Update id dto => snd (run (update id dto) w)
  | Delete id => snd (run (delete id) w)
  end.

Definition performAll (ops : list Operation) (w : World) : World :=
  foldl (λ w' op, perform op w') w ops.

(** No live row carries the identifier, and the sequence is past it. *)
Definition retired (id : Z) (w : World) : Prop :=
  id ≤ sequence w
  ∧ Forall (λ s, Stopwatch.id s = id → Repository.live s = false) (table w).

(** A world to evaluate examples in: its clock reads [t0], then [t1], then
    [t2] from then on. *)
Definition readings (t0 t1 t2 : Instant) (n : nat) : Instant :=
  match n with O => t0 | S O => t1 | _ => t2 end.

Definition worldOf (rows : list Stopwatch) (seq : Z) (t0 t1 t2 : Instant) : World :=
  mkWorld rows seq (readings t0 t1 t2) 0.

(** The clock and the requests of the scenario of the specification
    (section 8): the run of stopwatch 1 lasts five seconds. *)
Definition scenarioClock (n : nat) : Instant :=
  nth n [0; 0; 5000; 6000; 6000; 6000; 7000] 7000.

Definition scenario : list Operation :=
  [ Create (CreateStopwatchDto.mk "A");
    Start 1;
    Stop 1;
    Update 1 (UpdateStopwatchDto.mk None (Some 100));
    Start 1;
    Update 1 (UpdateStopwatchDto.mk None (Some 1));
    Delete 1;
    Stop 1;
    Delete 1 ].

(** ** The controller ([StopwatchController]) *)

(** A JavaScript string, as its UTF-16 code units. *)
Definition JsString : Type := list Z.

Module Js.
(** WhiteSpace and LineTerminator code units, the ones [parseInt] skips. *)
Definition isWhiteSpace (c : Z) : bool :=
  (c =? 9) || (c =? 10) || (c =? 11) || (c =? 12) || (c =? 13) || (c =? 32)
  || (c =? 160) || (c =? 5760) || ((8192 <=? c) && (c <=? 8202))
  || (c =? 8232) || (c =? 8233) || (c =? 8239) || (c =? 8287)
  || (c =? 12288) || (c =? 65279).

Fixpoint trimStart (s : JsString) : JsString :=
  match s with
  | c :: rest => if isWhiteSpace c then trimStart rest else s
  | [] => []
  end.

(** The value of a code unit as a digit: [0-9], [a-z], [A-Z]. *)
Definition digitValue (c : Z) : option Z :=
  if (48 <=? c) && (c <=? 57) then Some (c - 48)
  else if (97 <=? c) && (c <=? 122) then Some (c - 97 + 10)
  else if (65 <=? c) && (c <=? 90) then Some (c - 65 + 10)
  else None.

Definition radixDigit (radix c : Z) : option Z :=
  match digitValue c with
  | Some d => if d <? radix then Some d else None
  | None => None
  end.

(** The digits of the longest prefix made of radix digits. *)
Fixpoint digitsPrefix (radix : Z) (s : JsString) : list Z :=
  match s with
  | c :: rest =>
      match radixDigit radix c with
      | Some d => d :: digitsPrefix radix rest
      | None => []
      end
  | [] => []
  end.

Definition mathInt (radix : Z) (digits : list Z) : Z :=
  fold_left (λ acc d, acc * radix + d) digits 0.

(** [parseInt(string)] without a radix; [None] is NaN.  Leading white space
    is skipped, then a sign, then a [0x] or [0X] prefix (which makes the
    radix 16 instead of 10); the digits that follow, up to the first code
    unit that is not one, give the value, and there must be at least one.
    The result is the mathematical integer: its rounding to a double beyond
    2^53 is not modelled, and -0 is 0. *)
Definition parseInt (string : JsString) : option Z :=
  let trimmed := trimStart string in
  let negative := match trimmed with c :: _ => c =? 45 | [] => false end in
  let unsigned := match trimmed with
                  | c :: rest => if (c =? 43) || (c =? 45) then rest else trimmed
                  | [] => []
                  end in
  let hex := match unsigned with
             | c0 :: c1 :: _ => (c0 =? 48) && ((c1 =? 120) || (c1 =? 88))
             | _ => false
             end in
  let radix := if hex then 16 else 10 in
  let body := if hex then drop 2 unsigned else unsigned in
  match digitsPrefix radix body with
  | [] => None
  | digits => Some ((if negative then -1 else 1) * mathInt radix digits)
  end.
End Js.

Module StopwatchController.
(** [!trueId]: NaN and 0 are the falsy numbers. *)
Definition falsy (n : option Z) : bool :=
  match n with
  | None => true
  | Some n => n =? 0
  end.

Definition findAll : Eff (list StopwatchDto) := StopwatchService.findAll.

Definition create (createStopwatchDto : CreateStopwatchDto) : Eff StopwatchDto :=
  StopwatchService.create createStopwatchDto.

Definition start (id : JsString) : Eff StopwatchDto :=
  let trueId := Js.parseInt id in
  if falsy trueId then throw BadRequestException
  else StopwatchService.start (default 0 trueId).

Definition stop (id : JsString) : Eff StopwatchDto :=
  let trueId := Js.parseInt id in
  if falsy trueId then throw BadRequestException
  else StopwatchService.stop (default 0 trueId).

Definition update (id : JsString) (updateDto : UpdateStopwatchDto) : Eff StopwatchDto :=
  let trueId := Js.parseInt id in
  if falsy trueId then throw BadRequestException
  else StopwatchService.update (default 0 trueId) updateDto.

Definition delete (id : JsString) : Eff string :=
  let trueId := Js.parseInt id in
  if falsy trueId then throw BadRequestException
  else StopwatchService.delete (default 0 trueId).
End StopwatchController.

(** ** Vocabulary of the further properties *)

(** [n] start-then-stop rounds on one stopwatch. *)
Fixpoint cycles (id : Z) (n : nat) : list Operation :=
  match n with
  | O => []
  | S n' => Start id :: Stop id :: cycles id n'
  end.

(** The length in milliseconds of each of [n] rounds when the first start
    takes reading [from] of the clock: a start takes two readings (the start
    time, then the view), the stop takes the third. *)
Fixpoint runLengths (c : nat → Instant) (from n : nat) : list Z :=
  match n with
  | O => []
  | S n' => (c (S (S from)) - c from) :: runLengths c (S (S (S from))) n'
  end.

Definition sumZ (l : list Z) : Z := foldr Z.add 0 l.

(** The primary key: identifiers are pairwise distinct and came out of the
    sequence. *)
Definition wellKeyed (w : World) : Prop :=
  NoDup (map Stopwatch.id (table w)) ∧ idsBounded w.


(** The code units of a run of decimal digits given by their values, and of
    a run of hexadecimal digits (in lower case). *)
Definition decimalText (digits : list Z) : JsString := map (λ d, 48 + d) digits.

Definition hexText (digits : list Z) : JsString :=
  map (λ h, if h <? 10 then 48 + h else 87 + h) digits.

(** A text that cannot continue a number in the given radix: it is empty or
    starts with a code unit that is not a digit of the radix. *)
Definition stopsNumber (radix : Z) (tail : JsString) : Prop :=
  match tail with
  | [] => True
  | c :: _ => Js.radixDigit radix c = None
  end.

(** 2^53, up to which every integer is a JavaScript number. *)
Definition maxSafe : Z := 9007199254740992.

(** ** The elapsed-time computation *)

Lemma floor_seconds (e d : Z) :
  Qfloor (inject_Z e + inject_Z d / inject_Z 1000)%Q = e + d / 1000.
Proof.
  unfold Qfloor, Qplus, Qdiv, Qmult, Qinv, inject_Z. simpl.
  rewrite !Z.mul_1_r, Z.add_comm, Z.div_add by lia.
  apply Z.add_comm.
Qed.

Lemma calculateElapsed_stopped (s : Stopwatch) (w : World) :
  Stopwatch.isRunning s = false →
  run (calculateElapsed s) w = (inr (Stopwatch.elapsed s), w).
Proof. intros H. unfold run, calculateElapsed. rewrite H. reflexivity. Qed.

Lemma calculateElapsed_running (s : Stopwatch) (w : World) :
  Stopwatch.isRunning s = true →
  run (calculateElapsed s) w =
    (inr (Stopwatch.elapsed s + secondsBetween (runStart (upcoming w) s) (upcoming w)),
     tick w).
Proof.
  intros H. unfold run, calculateElapsed. rewrite H. cbn [negb].
  unfold mbind, Eff_bind, newDate, mret, Eff_ret.
  rewrite floor_seconds. reflexivity.
Qed.

Lemma toDto_stopped (s : Stopwatch) (w : World) :
  Stopwatch.isRunning s = false →
  run (toDto s) w = (inr (viewOf (Stopwatch.elapsed s) s), w).
Proof.
  intros H. unfold run, toDto, mbind, Eff_bind.
  change (calculateElapsed s w) with (run (calculateElapsed s) w).
  rewrite calculateElapsed_stopped by exact H. reflexivity.
Qed.

Lemma toDto_running (s : Stopwatch) (w : World) :
  Stopwatch.isRunning s = true →
  run (toDto s) w =
    (inr (viewOf (Stopwatch.elapsed s
                  + secondsBetween (runStart (upcoming w) s) (upcoming w)) s),
     tick w).
Proof.
  intros H. unfold run, toDto, mbind, Eff_bind.
  change (calculateElapsed s w) with (run (calculateElapsed s) w).
  rewrite calculateElapsed_running by exact H. reflexivity.
Qed.

(** Building a view never throws, leaves the rows alone and reads the clock
    at most once. *)
Lemma toDto_total (s : Stopwatch) (w : World) :
  ∃ e, run (toDto s) w
       = (inr (viewOf e s), if Stopwatch.isRunning s then tick w else w).
Proof.
  destruct (Stopwatch.isRunning s) eqn:H.
  - eexists. apply toDto_running, H.
  - eexists. apply toDto_stopped, H.
Qed.

(** ** The record store *)

Section Rows.
Import Repository.

Lemma lookup_Some (id : Z) (rows : list Stopwatch) (s : Stopwatch) :
  lookup id rows = Some s →
  In s rows ∧ Stopwatch.id s = id ∧ live s = true.
Proof.
  unfold lookup. intros H. apply find_some in H as [Hin Hp].
  apply andb_true_iff in Hp as [Hid Hl]. unfold hasId in Hid.
  apply Z.eqb_eq in Hid. auto.
Qed.

Lemma lookup_None (id : Z) (rows : list Stopwatch) :
  lookup id rows = None ↔
  ∀ s, In s rows → Stopwatch.id s = id → live s = false.
Proof.
  unfold lookup. split.
  - intros H s Hin Hid. pose proof (find_none _ _ H s Hin) as Hp.
    apply andb_false_iff in Hp as [Hp | Hp]; [| exact Hp].
    unfold hasId in Hp. apply Z.eqb_neq in Hp. contradiction.
  - intros H. induction rows as [| r rows IH]; [reflexivity |].
    simpl. destruct (hasId id r && live r) eqn:Hp.
    + apply andb_true_iff in Hp as [Hid Hl]. unfold hasId in Hid.
      apply Z.eqb_eq in Hid. rewrite (H r) in Hl; [discriminate | now left | exact Hid].
    + apply IH. intros s Hin. apply H. now right.
Qed.

Lemma lookup_existsb (id : Z) (rows : list Stopwatch) (s : Stopwatch) :
  lookup id rows = Some s → existsb (hasId id) rows = true.
Proof.
  intros H. apply lookup_Some in H as (Hin & Hid & _).
  apply existsb_exists. exists s. split; [exact Hin |].
  unfold hasId. now apply Z.eqb_eq.
Qed.

(** After an UPDATE of the rows of [s], a lookup of its identifier finds [s]. *)
Lemma lookup_replace_same (s : Stopwatch) (rows : list Stopwatch) :
  existsb (hasId (Stopwatch.id s)) rows = true → live s = true →
  lookup (Stopwatch.id s) (replaceRow s rows) = Some s.
Proof.
  intros Hex Hl. induction rows as [| r rows IH]; [discriminate |].
  simpl in *. destruct (hasId (Stopwatch.id s) r) eqn:Hr.
  - unfold hasId at 1. rewrite Z.eqb_refl, Hl. reflexivity.
  - rewrite Hr. simpl. apply IH, Hex.
Qed.

Lemma lookup_replace_other (k : Z) (s : Stopwatch) (rows : list Stopwatch) :
  k ≠ Stopwatch.id s →
  lookup k (replaceRow s rows) = lookup k rows.
Proof.
  intros Hk. induction rows as [| r rows IH]; [reflexivity |].
  simpl. destruct (hasId (Stopwatch.id s) r) eqn:Hr.
  - unfold hasId in Hr. apply Z.eqb_eq in Hr.
    assert (hasId k s = false) as -> by (unfold hasId; apply Z.eqb_neq; congruence).
    assert (hasId k r = false) as -> by (unfold hasId; apply Z.eqb_neq; congruence).
    simpl. exact IH.
  - destruct (hasId k r && live r); [reflexivity | exact IH].
Qed.

Lemma lookup_stamp_same (id : Z) (t : Instant) (rows : list Stopwatch) :
  lookup id (stampRows id t rows) = None.
Proof.
  apply lookup_None. intros s Hin Hid. unfold stampRows in Hin.
  apply in_map_iff in Hin as (r & Hr & _). subst s.
  destruct (hasId id r) eqn:Hh; [reflexivity |].
  unfold hasId in Hh. apply Z.eqb_neq in Hh. contradiction.
Qed.

Lemma lookup_stamp_other (k id : Z) (t : Instant) (rows : list Stopwatch) :
  k ≠ id → lookup k (stampRows id t rows) = lookup k rows.
Proof.
  intros Hk. induction rows as [| r rows IH]; [reflexivity |].
  simpl. destruct (hasId id r) eqn:Hr.
  - unfold hasId in Hr. apply Z.eqb_eq in Hr.
    assert (hasId k (Stopwatch.set_deletedAt (Some t) r) = false) as Hn
      by (unfold hasId; simpl; apply Z.eqb_neq; congruence).
    assert (hasId k r = false) as -> by (unfold hasId; apply Z.eqb_neq; congruence).
    unfold lookup at 1. simpl. rewrite Hn. simpl. exact IH.
  - unfold lookup at 1. simpl. fold (lookup k (stampRows id t rows)).
    rewrite IH. reflexivity.
Qed.

Lemma Forall_replaceRow (P : Stopwatch → Prop) (s' : Stopwatch) (rows : list Stopwatch) :
  P s' → Forall P rows → Forall P (replaceRow s' rows).
Proof.
  intros Hs Hrows. unfold replaceRow. apply Forall_fmap.
  eapply Forall_impl; [exact Hrows |].
  intros r Hr. simpl. destruct (hasId _ r); assumption.
Qed.

Lemma Forall_stampRows (P : Stopwatch → Prop) (id : Z) (t : Instant)
    (rows : list Stopwatch) :
  (∀ r, P r → P (Stopwatch.set_deletedAt (Some t) r)) →
  Forall P rows → Forall P (stampRows id t rows).
Proof.
  intros Hstamp Hrows. unfold stampRows. apply Forall_fmap.
  eapply Forall_impl; [exact Hrows |].
  intros r Hr. simpl. destruct (hasId id r); [apply Hstamp, Hr | exact Hr].
Qed.

End Rows.

(** ** What each request returns and leaves behind *)

Ltac eff_unfold :=
  unfold run, mbind, Eff_bind, mret, Eff_ret, throw, newDate,
    Repository.findOne, Repository.save, Repository.softDelete,
    Repository.insert.

Lemma run_create (dto : CreateStopwatchDto) (w : World) :
  let row := Stopwatch.mk (sequence w + 1) None (CreateStopwatchDto.name dto) false 0 None in
  run (create dto) w =
    (inr (viewOf 0 row),
     mkWorld (table w ++ [row]) (sequence w + 1) (clock w) (reads w)).
Proof. reflexivity. Qed.

Lemma run_start (id : Z) (w : World) :
  run (start id) w =
    match Repository.lookup id (table w) with
    | None => (inl NotFoundException, w)
    | Some s =>
        if Stopwatch.isRunning s then (inl BadRequestException, w)
        else
          let s' := started (upcoming w) s in
          (inr (viewOf (Stopwatch.elapsed s
                        + secondsBetween (upcoming w) (clock w (S (reads w)))) s'),
           mkWorld (Repository.replaceRow s' (table w)) (sequence w) (clock w)
             (S (S (reads w))))
    end.
Proof.
  unfold start. eff_unfold.
  destruct (Repository.lookup id (table w)) as [s |] eqn:Hl; [| reflexivity].
  destruct (Stopwatch.isRunning s) eqn:Hr; [reflexivity |].
  pose proof (lookup_existsb _ _ _ Hl) as Hex.
  apply lookup_Some in Hl as (_ & Hid & _).
  cbn [table tick]. simpl Stopwatch.id. rewrite Hid, Hex.
  match goal with |- toDto ?s ?w' = ?r => change (run (toDto s) w' = r) end.
  rewrite toDto_running by reflexivity.
  reflexivity.
Qed.

Lemma run_stop (id : Z) (w : World) :
  run (stop id) w =
    match Repository.lookup id (table w) with
    | None => (inl NotFoundException, w)
    | Some s =>
        if Stopwatch.isRunning s then
          let e := Stopwatch.elapsed s
                   + secondsBetween (runStart (upcoming w) s) (upcoming w) in
          let s' := stopped e s in
          (inr (viewOf e s'),
           mkWorld (Repository.replaceRow s' (table w)) (sequence w) (clock w)
             (S (reads w)))
        else (inl BadRequestException, w)
    end.
Proof.
  unfold stop. eff_unfold.
  destruct (Repository.lookup id (table w)) as [s |] eqn:Hl; [| reflexivity].
  destruct (Stopwatch.isRunning s) eqn:Hr; [| reflexivity].
  pose proof (lookup_existsb _ _ _ Hl) as Hex.
  apply lookup_Some in Hl as (_ & Hid & _).
  cbn [negb].
  change (calculateElapsed s w) with (run (calculateElapsed s) w).
  rewrite calculateElapsed_running by exact Hr.
  cbn [table tick]. simpl Stopwatch.id. rewrite Hid, Hex.
  match goal with |- toDto ?s ?w' = ?r => change (run (toDto s) w' = r) end.
  rewrite toDto_stopped by reflexivity.
  reflexivity.
Qed.

Lemma spread_id (s : Stopwatch) (dto : UpdateStopwatchDto) :
  Stopwatch.id (spread s dto) = Stopwatch.id s.
Proof. unfold spread. destruct dto as [[n |] [e |]]; reflexivity. Qed.

Lemma spread_isRunning (s : Stopwatch) (dto : UpdateStopwatchDto) :
  Stopwatch.isRunning (spread s dto) = Stopwatch.isRunning s.
Proof. unfold spread. destruct dto as [[n |] [e |]]; reflexivity. Qed.

Lemma spread_startTime (s : Stopwatch) (dto : UpdateStopwatchDto) :
  Stopwatch.startTime (spread s dto) = Stopwatch.startTime s.
Proof. unfold spread. destruct dto as [[n |] [e |]]; reflexivity. Qed.

Lemma spread_deletedAt (s : Stopwatch) (dto : UpdateStopwatchDto) :
  Stopwatch.deletedAt (spread s dto) = Stopwatch.deletedAt s.
Proof. unfold spread. destruct dto as [[n |] [e |]]; reflexivity. Qed.

Lemma spread_elapsed (s : Stopwatch) (dto : UpdateStopwatchDto) :
  Stopwatch.elapsed (spread s dto)
  = default (Stopwatch.elapsed s) (UpdateStopwatchDto.elapsed dto).
Proof. unfold spread. destruct dto as [[n |] [e |]]; reflexivity. Qed.

Lemma run_update (id : Z) (dto : UpdateStopwatchDto) (w : World) :
  run (update id dto) w =
    match Repository.lookup id (table w) with
    | None => (inl NotFoundException, w)
    | Some s =>
        if truthy (UpdateStopwatchDto.elapsed dto) && Stopwatch.isRunning s
        then (inl BadRequestException, w)
        else
          run (toDto (spread s dto))
            (set_table (Repository.replaceRow (spread s dto) (table w)) w)
    end.
Proof.
  unfold update. eff_unfold.
  destruct (Repository.lookup id (table w)) as [s |] eqn:Hl; [| reflexivity].
  destruct (truthy _ && _); [reflexivity |].
  pose proof (lookup_existsb _ _ _ Hl) as Hex.
  apply lookup_Some in Hl as (_ & Hid & _).
  rewrite spread_id, Hid, Hex. reflexivity.
Qed.

Lemma run_delete (id : Z) (w : World) :
  run (delete id) w =
    match Repository.lookup id (table w) with
    | None => (inl NotFoundException, w)
    | Some s =>
        if Stopwatch.isRunning s then (inl BadRequestException, w)
        else (inr "ok"%string,
              mkWorld (Repository.stampRows id (upcoming w) (table w))
                (sequence w) (clock w) (S (reads w)))
    end.
Proof.
  unfold delete. eff_unfold.
  destruct (Repository.lookup id (table w)) as [s |]; [| reflexivity].
  destruct (Stopwatch.isRunning s); reflexivity.
Qed.

Lemma secondsBetween_nonneg (since now : Instant) :
  0 ≤ secondsBetween since now ↔ since ≤ now.
Proof.
  unfold secondsBetween. split; intros H.
  - destruct (Z.le_gt_cases since now) as [Hle | Hgt]; [exact Hle |].
    assert ((now - since) / 1000 < 0) by (apply Z.div_lt_upper_bound; lia). lia.
  - apply Z.div_pos; lia.
Qed.

Lemma secondsBetween_zero (since now : Instant) :
  secondsBetween since now = 0 ↔ 0 ≤ now - since < 1000.
Proof.
  unfold secondsBetween. split; intros H.
  - apply Z.div_small_iff in H; lia.
  - apply Z.div_small. exact H.
Qed.

(** ** C1: the elapsed-time computation does not clamp *)

(** C1, as stated, fails: a running stopwatch with stored elapsed 10 whose
    [startTime] is 5000 ms, read at instant 0 (five seconds before its start),
    yields 5, which is below the stored elapsed.  The delta is not clamped. *)
Lemma calculateElapsed_clamp_counterexample :
  upcoming (worldOf [] 0 0 0 0) < 5000 ∧
  run (calculateElapsed (Stopwatch.mk 1 None "A" true 10 (Some 5000)))
      (worldOf [] 0 0 0 0)
  = (inr 5, tick (worldOf [] 0 0 0 0)) ∧
  5 < Stopwatch.elapsed (Stopwatch.mk 1 None "A" true 10 (Some 5000)).
Proof. split; [reflexivity |]. split; reflexivity. Qed.

(** C1 (amended): [calculateElapsed] returns the stored elapsed when the
    stopwatch is not running (without reading the clock), and when it is
    running it reads the clock once and returns
    [elapsed + floor((now - startTime) / 1000)], with [startTime] taken as
    [now] when it is null.  A negative delta is kept: the result is below the
    stored elapsed exactly when [now] is earlier than [startTime]. *)
Theorem calculateElapsed_unclamped (s : Stopwatch) (w : World) :
  run (calculateElapsed s) w
  = (if Stopwatch.isRunning s
     then (inr (Stopwatch.elapsed s
                + secondsBetween (runStart (upcoming w) s) (upcoming w)),
           tick w)
     else (inr (Stopwatch.elapsed s), w))
  ∧ (Stopwatch.elapsed s + secondsBetween (runStart (upcoming w) s) (upcoming w)
       < Stopwatch.elapsed s
     ↔ upcoming w < runStart (upcoming w) s).
Proof.
  split.
  - destruct (Stopwatch.isRunning s) eqn:H.
    + apply calculateElapsed_running, H.
    + apply calculateElapsed_stopped, H.
  - pose proof (secondsBetween_nonneg (runStart (upcoming w) s) (upcoming w)).
    lia.
Qed.

(** ** C10: a running row without a start time *)

(** C10: [calculateElapsed] always returns a number, whatever the row; and
    for a row with [isRunning = true] and [startTime = null] it takes the
    instant it has just read as the start, so the result is
    [floor(elapsed)], which is [elapsed] itself for the integer column. *)
Theorem calculateElapsed_missing_startTime
    (id : Z) (deletedAt : option Instant) (name : string) (elapsed : Z)
    (s : Stopwatch) (w : World) :
  (∃ r, fst (run (calculateElapsed s) w) = inr r)
  ∧ run (calculateElapsed (Stopwatch.mk id deletedAt name true elapsed None)) w
    = (inr (Qfloor (inject_Z elapsed)), tick w)
  ∧ Qfloor (inject_Z elapsed) = elapsed.
Proof.
  split; [| split].
  - destruct (Stopwatch.isRunning s) eqn:H.
    + rewrite calculateElapsed_running by exact H. eexists; reflexivity.
    + rewrite calculateElapsed_stopped by exact H. eexists; reflexivity.
  - rewrite calculateElapsed_running, Qfloor_Z by reflexivity.
    unfold runStart, secondsBetween. cbn [Stopwatch.startTime Stopwatch.elapsed default].
    rewrite Z.sub_diag, Z.div_0_l, Z.add_0_r by lia. reflexivity.
  - apply Qfloor_Z.
Qed.

(** ** C2: the guard of [update] *)

Lemma truthy_spec (x : option Z) :
  truthy x = true ↔ ∃ n, x = Some n ∧ n ≠ 0.
Proof.
  destruct x as [n |]; simpl.
  - rewrite negb_true_iff, Z.eqb_neq. split.
    + intros H. exists n. auto.
    + intros (m & [= ->] & H). exact H.
  - split; [discriminate | intros (n & H & _); discriminate].
Qed.

(** What the guard of [update] does: the request is rejected exactly when
    the patch carries a non-zero [elapsed] and the row is running. *)
Lemma update_rejects_iff (id : Z) (dto : UpdateStopwatchDto) (w : World) :
  fst (run (update id dto) w) = inl BadRequestException ↔
  ∃ s n, Repository.lookup id (table w) = Some s
         ∧ Stopwatch.isRunning s = true
         ∧ UpdateStopwatchDto.elapsed dto = Some n ∧ n ≠ 0.
Proof.
  rewrite run_update.
  destruct (Repository.lookup id (table w)) as [s |] eqn:Hl; simpl.
  - destruct (truthy _ && _) eqn:Hg; simpl.
    + apply andb_true_iff in Hg as [Ht Hr].
      apply truthy_spec in Ht as (n & Hn & Hz).
      split; [intros _; exists s, n; auto | reflexivity].
    + destruct (toDto_total (spread s dto)
                  (set_table (Repository.replaceRow (spread s dto) (table w)) w))
        as [e ->]. simpl. split; [discriminate |].
      intros (s' & n & [= <-] & Hr & Hn & Hz).
      assert (truthy (UpdateStopwatchDto.elapsed dto) = true) as Ht
        by (apply truthy_spec; eauto).
      rewrite Ht, Hr in Hg. discriminate.
  - split; [discriminate | intros (s & n & H & _); discriminate].
Qed.

(** C2, at the failing input: stopwatch 1 is running with stored elapsed 100;
    the patch [{ elapsed: 0 }] is not rejected, and the stored elapsed is
    overwritten with 0 while the stopwatch keeps running. *)
Theorem update_elapsed_zero_while_running :
  run (update 1 (UpdateStopwatchDto.mk None (Some 0)))
      (worldOf [Stopwatch.mk 1 None "A" true 100 (Some 0)] 1 0 0 0)
  = (inr (StopwatchDto.mk 1 "A" true 0),
     mkWorld [Stopwatch.mk 1 None "A" true 0 (Some 0)] 1 (readings 0 0 0) 1).
Proof. reflexivity. Qed.

(** ** Rows after a request *)

Lemma lookup_after_save (id : Z) (s s' : Stopwatch) (rows : list Stopwatch) :
  Repository.lookup id rows = Some s →
  Stopwatch.id s' = Stopwatch.id s →
  Stopwatch.deletedAt s' = Stopwatch.deletedAt s →
  Repository.lookup id (Repository.replaceRow s' rows) = Some s'
  ∧ ∀ k, k ≠ id →
      Repository.lookup k (Repository.replaceRow s' rows) = Repository.lookup k rows.
Proof.
  intros Hl Hid Hdel.
  pose proof (lookup_existsb _ _ _ Hl) as Hex.
  apply lookup_Some in Hl as (_ & Hs & Hlive).
  assert (Stopwatch.id s' = id) as Hid' by congruence.
  split.
  - rewrite <- Hid' at 1. apply lookup_replace_same.
    + rewrite Hid'. exact Hex.
    + unfold Repository.live in *. rewrite Hdel. exact Hlive.
  - intros k Hk. apply lookup_replace_other. congruence.
Qed.

Lemma lookup_snoc (k : Z) (rows : list Stopwatch) (row : Stopwatch) :
  Repository.lookup k (rows ++ [row])
  = match Repository.lookup k rows with
    | Some r => Some r
    | None => if Repository.hasId k row && Repository.live row then Some row else None
    end.
Proof.
  unfold Repository.lookup. induction rows as [| r rows IH]; simpl.
  - destruct (Repository.hasId k row && Repository.live row); reflexivity.
  - destruct (Repository.hasId k r && Repository.live r); [reflexivity | exact IH].
Qed.

(** ** C5: start *)

(** C5, as stated, fails in its last part: when the clock reads 0 at the
    start and 1000 ms when the view is built, the view of a stopwatch with
    stored elapsed 10 carries 11, not the stored 10. *)
Lemma start_view_counterexample :
  run (start 1) (worldOf [Stopwatch.mk 1 None "A" false 10 None] 1 0 1000 1000)
  = (inr (StopwatchDto.mk 1 "A" true 11),
     mkWorld [Stopwatch.mk 1 None "A" true 10 (Some 0)] 1 (readings 0 1000 1000) 2)
  ∧ StopwatchDto.elapsed (StopwatchDto.mk 1 "A" true 11)
    ≠ Stopwatch.elapsed (Stopwatch.mk 1 None "A" true 10 (Some 0)).
Proof. split; [reflexivity | discriminate]. Qed.

(** C5 (amended): [start id] throws NotFound exactly when no live row has
    the identifier, BadRequest exactly when the live row is already running,
    and a failure leaves the world as it was.  Otherwise the row is stored
    with [isRunning = true] and [startTime = now] (its [elapsed] and the
    other rows untouched), and the view carries
    [elapsed + floor((later - now) / 1000)], where [later] is the instant
    read when the view is built: that is the stored elapsed exactly when
    [0 <= later - now < 1000]. *)
Theorem start_contract (id : Z) (w : World) :
  (fst (run (start id) w) = inl NotFoundException
     ↔ Repository.lookup id (table w) = None)
  ∧ (fst (run (start id) w) = inl BadRequestException
     ↔ ∃ s, Repository.lookup id (table w) = Some s ∧ Stopwatch.isRunning s = true)
  ∧ (∀ e, fst (run (start id) w) = inl e → snd (run (start id) w) = w)
  ∧ (∀ s, Repository.lookup id (table w) = Some s →
          Stopwatch.isRunning s = false →
          let now := upcoming w in
          let later := clock w (S (reads w)) in
          let after := snd (run (start id) w) in
          fst (run (start id) w)
            = inr (viewOf (Stopwatch.elapsed s + secondsBetween now later)
                     (started now s))
          ∧ Repository.lookup id (table after) = Some (started now s)
          ∧ (∀ k, k ≠ id →
                Repository.lookup k (table after) = Repository.lookup k (table w))
          ∧ (Stopwatch.elapsed s + secondsBetween now later
               = Stopwatch.elapsed (started now s)
             ↔ 0 ≤ later - now < 1000)).
Proof.
  rewrite run_start.
  destruct (Repository.lookup id (table w)) as [s |] eqn:Hl.
  - destruct (Stopwatch.isRunning s) eqn:Hr; cbn [fst snd].
    + split; [split; discriminate |].
      split; [split; [intros _; exists s; auto | reflexivity] |].
      split; [reflexivity |].
      intros s' [= <-] Hs. congruence.
    + split; [split; discriminate |].
      split; [split; [discriminate | intros (s' & [= <-] & ?); congruence] |].
      split; [discriminate |].
      intros s' [= <-] _.
      destruct (lookup_after_save id s (started (upcoming w) s) (table w) Hl)
        as [Hsame Hother]; [reflexivity | reflexivity |].
      split; [reflexivity |]. split; [exact Hsame |]. split; [exact Hother |].
      cbn [started Stopwatch.elapsed Stopwatch.set_startTime Stopwatch.set_isRunning].
      rewrite <- secondsBetween_zero. lia.
  - cbn [fst snd].
    split; [split; reflexivity |].
    split; [split; [discriminate | intros (s & [=] & _)] |].
    split; [reflexivity |].
    intros s [=].
Qed.

(** The amended C5 at a stopped stopwatch with stored elapsed 10, the
    clock reading 0 and then 400 ms. *)
Lemma start_contract_witness :
  fst (run (start 1) (worldOf [Stopwatch.mk 1 None "A" false 10 None] 1 0 400 400))
  = inr (StopwatchDto.mk 1 "A" true 10)
  ∧ Repository.lookup 1
      (table (snd (run (start 1)
                     (worldOf [Stopwatch.mk 1 None "A" false 10 None] 1 0 400 400))))
    = Some (Stopwatch.mk 1 None "A" true 10 (Some 0)).
Proof.
  destruct (start_contract 1 (worldOf [Stopwatch.mk 1 None "A" false 10 None] 1 0 400 400))
    as (_ & _ & _ & H).
  destruct (H (Stopwatch.mk 1 None "A" false 10 None) eq_refl eq_refl)
    as (Hview & Hrow & _).
  split; [exact Hview | exact Hrow].
Defined.

(** ** C7: list *)

Global Instance byId_transitive : Transitive Repository.byId.
Proof. intros a b c. unfold Repository.byId. lia. Qed.

Global Instance byId_total : Total Repository.byId.
Proof. intros a b. unfold Repository.byId. lia. Qed.

Lemma run_toDto (s : Stopwatch) (w : World) :
  run (toDto s) w
  = (inr (viewOf (effective (upcoming w) s) s),
     if Stopwatch.isRunning s then tick w else w).
Proof.
  unfold effective. destruct (Stopwatch.isRunning s) eqn:H.
  - apply toDto_running, H.
  - apply toDto_stopped, H.
Qed.

Lemma toDto_table (s : Stopwatch) (w : World) :
  table (snd (run (toDto s) w)) = table w.
Proof. rewrite run_toDto. destruct (Stopwatch.isRunning s); reflexivity. Qed.

Lemma toDto_sequence (s : Stopwatch) (w : World) :
  sequence (snd (run (toDto s) w)) = sequence w.
Proof. rewrite run_toDto. destruct (Stopwatch.isRunning s); reflexivity. Qed.

Lemma run_mapM_cons (s : Stopwatch) (rows : list Stopwatch) (w : World) :
  run (mapM toDto (s :: rows)) w
  = match run (toDto s) w with
    | (inl e, w') => (inl e, w')
    | (inr v, w') =>
        match run (mapM toDto rows) w' with
        | (inl e, w'') => (inl e, w'')
        | (inr vs, w'') => (inr (v :: vs), w'')
        end
    end.
Proof. reflexivity. Qed.

(** Mapping [toDto] over the rows never throws; it only advances the clock,
    and each view is the one of its row at a reading taken on the way. *)
Lemma run_mapM_toDto (rows : list Stopwatch) :
  ∀ w, ∃ views w',
    run (mapM toDto rows) w = (inr views, w')
    ∧ table w' = table w ∧ sequence w' = sequence w ∧ clock w' = clock w
    ∧ (reads w ≤ reads w')%nat
    ∧ Forall2 (λ s v, ∃ i, (reads w ≤ i ≤ reads w')%nat
                           ∧ v = viewOf (effective (clock w i) s) s) rows views.
Proof.
  induction rows as [| s rows IH]; intros w.
  - exists [], w. split; [reflexivity |]. repeat split; auto.
  - rewrite run_mapM_cons, run_toDto.
    set (w1 := if Stopwatch.isRunning s then tick w else w).
    assert (table w1 = table w ∧ sequence w1 = sequence w ∧ clock w1 = clock w
            ∧ (reads w ≤ reads w1)%nat) as (Ht & Hs & Hc & Hr).
    { unfold w1. destruct (Stopwatch.isRunning s); simpl; auto with lia. }
    destruct (IH w1) as (views & w' & -> & Ht' & Hs' & Hc' & Hr' & Hall).
    exists (viewOf (effective (upcoming w) s) s :: views), w'.
    split; [reflexivity |].
    split; [congruence |]. split; [congruence |]. split; [congruence |].
    split; [lia |].
    constructor.
    + exists (reads w). split; [lia | reflexivity].
    + eapply Forall2_impl; [exact Hall |].
      intros r v (i & Hi & ->). exists i. split; [lia |]. rewrite Hc. reflexivity.
Qed.

Lemma findAll_table (w : World) : table (snd (run findAll w)) = table w.
Proof.
  set (rows := merge_sort Repository.byId (List.filter Repository.live (table w))).
  change (run findAll w) with (run (mapM toDto rows) w).
  destruct (run_mapM_toDto rows w) as (views & w' & -> & Ht & _).
  exact Ht.
Qed.

Lemma findAll_sequence (w : World) : sequence (snd (run findAll w)) = sequence w.
Proof.
  set (rows := merge_sort Repository.byId (List.filter Repository.live (table w))).
  change (run findAll w) with (run (mapM toDto rows) w).
  destruct (run_mapM_toDto rows w) as (views & w' & -> & _ & Hs & _).
  exact Hs.
Qed.

Lemma view_ids (rows : list Stopwatch) (views : list StopwatchDto) :
  Forall2 (λ s v, StopwatchDto.id v = Stopwatch.id s) rows views →
  map StopwatchDto.id views = map Stopwatch.id rows.
Proof. induction 1; simpl; congruence. Qed.

(** C7: [findAll] never throws and leaves the table alone.  Its views are
    those of the non-deleted rows (a permutation of them), in ascending order
    of identifier, each carrying the effective elapsed time of its row at a
    clock reading taken during the call rather than the raw stored value; on
    an empty table the result is the empty list. *)
Theorem findAll_contract (w : World) :
  ∃ (rows : list Stopwatch) (views : list StopwatchDto),
    fst (run findAll w) = inr views
    ∧ table (snd (run findAll w)) = table w
    ∧ rows ≡ₚ List.filter Repository.live (table w)
    ∧ StronglySorted Z.le (map StopwatchDto.id views)
    ∧ Forall2 (λ s v, ∃ i, (reads w ≤ i ≤ reads (snd (run findAll w)))%nat
                           ∧ v = viewOf (effective (clock w i) s) s) rows views
    ∧ run findAll (set_table [] w) = (inr [], set_table [] w).
Proof.
  set (rows := merge_sort Repository.byId (List.filter Repository.live (table w))).
  assert (run findAll w = run (mapM toDto rows) w) as Hrun by reflexivity.
  destruct (run_mapM_toDto rows w) as (views & w' & H & Ht & _ & _ & _ & Hall).
  exists rows, views. rewrite Hrun, H. cbn [fst snd].
  split; [reflexivity |]. split; [exact Ht |].
  split; [apply merge_sort_Permutation |].
  split; [| split; [exact Hall | reflexivity]].
  rewrite (view_ids rows views).
  - apply StronglySorted_fmap with (R1 := Repository.byId).
    + intros a b Hab. exact Hab.
    + apply StronglySorted_merge_sort; apply _.
  - eapply Forall2_impl; [exact Hall |]. intros s v (i & _ & ->). reflexivity.
Qed.

(** ** The stored elapsed across requests other than stop *)

Lemma storedElapsed_start (k id : Z) (w : World) :
  storedElapsed k (snd (run (start id) w)) = storedElapsed k w.
Proof.
  unfold storedElapsed. rewrite run_start.
  destruct (Repository.lookup id (table w)) as [s |] eqn:Hl; [| reflexivity].
  destruct (Stopwatch.isRunning s); [reflexivity |]. cbn [snd table].
  destruct (lookup_after_save id s (started (upcoming w) s) (table w) Hl)
    as [Hsame Hother]; [reflexivity | reflexivity |].
  destruct (decide (k = id)) as [-> | Hk].
  - rewrite Hsame, Hl. reflexivity.
  - rewrite Hother by exact Hk. reflexivity.
Qed.

Lemma storedElapsed_update (k id : Z) (dto : UpdateStopwatchDto) (w : World) :
  storedElapsed k (snd (run (update id dto) w)) = storedElapsed k w
  ∨ storedElapsed k (snd (run (update id dto) w)) = UpdateStopwatchDto.elapsed dto.
Proof.
  unfold storedElapsed. rewrite run_update.
  destruct (Repository.lookup id (table w)) as [s |] eqn:Hl; [| now left].
  destruct (truthy _ && _); [now left |].
  rewrite toDto_table. cbn [table set_table].
  destruct (lookup_after_save id s (spread s dto) (table w) Hl)
    as [Hsame Hother]; [apply spread_id | apply spread_deletedAt |].
  destruct (decide (k = id)) as [-> | Hk].
  - rewrite Hsame, Hl. cbn [fmap option_fmap option_map]. rewrite spread_elapsed.
    destruct (UpdateStopwatchDto.elapsed dto); [now right | now left].
  - left. rewrite Hother by exact Hk. reflexivity.
Qed.

Lemma storedElapsed_delete (k id : Z) (w : World) :
  storedElapsed k (snd (run (delete id) w)) = storedElapsed k w
  ∨ storedElapsed k (snd (run (delete id) w)) = None.
Proof.
  unfold storedElapsed. rewrite run_delete.
  destruct (Repository.lookup id (table w)) as [s |] eqn:Hl; [| now left].
  destruct (Stopwatch.isRunning s); [now left |]. cbn [snd table].
  destruct (decide (k = id)) as [-> | Hk].
  - right. rewrite lookup_stamp_same. reflexivity.
  - left. rewrite lookup_stamp_other by exact Hk. reflexivity.
Qed.

Lemma storedElapsed_create (k : Z) (dto : CreateStopwatchDto) (w : World) :
  storedElapsed k (snd (run (create dto) w)) = storedElapsed k w
  ∨ storedElapsed k (snd (run (create dto) w)) = Some 0.
Proof.
  unfold storedElapsed. rewrite run_create. cbn [snd table].
  rewrite lookup_snoc.
  destruct (Repository.lookup k (table w)); [now left |].
  destruct (Repository.hasId k _ && _); [now right | now left].
Qed.

(** ** C4: stop *)

(** C4: [stop id] throws NotFound exactly when no live row has the
    identifier, BadRequest exactly when the live row is not running, and a
    failure leaves the world as it was.  Otherwise the row is stored with
    [elapsed + floor((now - startTime) / 1000)], [isRunning = false] and
    [startTime = null], the other rows untouched, and the view shows the
    same elapsed.  After any request other than a stop, the stored elapsed
    of a row is what it was, or 0 for a created row, or the value of the
    patch of an update, or gone with a deleted row: never a function of the
    clock. *)
Theorem stop_contract (id : Z) (w : World) :
  (fst (run (stop id) w) = inl NotFoundException
     ↔ Repository.lookup id (table w) = None)
  ∧ (fst (run (stop id) w) = inl BadRequestException
     ↔ ∃ s, Repository.lookup id (table w) = Some s ∧ Stopwatch.isRunning s = false)
  ∧ (∀ e, fst (run (stop id) w) = inl e → snd (run (stop id) w) = w)
  ∧ (∀ s, Repository.lookup id (table w) = Some s →
          Stopwatch.isRunning s = true →
          let now := upcoming w in
          let total := Stopwatch.elapsed s + secondsBetween (runStart now s) now in
          let after := snd (run (stop id) w) in
          fst (run (stop id) w) = inr (viewOf total (stopped total s))
          ∧ Repository.lookup id (table after) = Some (stopped total s)
          ∧ Stopwatch.elapsed (stopped total s) = total
          ∧ Stopwatch.isRunning (stopped total s) = false
          ∧ Stopwatch.startTime (stopped total s) = None
          ∧ (∀ k, k ≠ id →
                Repository.lookup k (table after) = Repository.lookup k (table w)))
  ∧ (∀ op k,
       match op with
       | Stop _ => True
       | FindAll | Start _ =>
           storedElapsed k (perform op w) = storedElapsed k w
       | Create _ =>
           storedElapsed k (perform op w) = storedElapsed k w
           ∨ storedElapsed k (perform op w) = Some 0
       | Update _ dto =>
           storedElapsed k (perform op w) = storedElapsed k w
           ∨ storedElapsed k (perform op w) = UpdateStopwatchDto.elapsed dto
       | Delete _ =>
           storedElapsed k (perform op w) = storedElapsed k w
           ∨ storedElapsed k (perform op w) = None
       end).
Proof.
  split; [| split; [| split; [| split]]].
  5: { intros [| dto | i | i | i dto | i] k; cbn [perform].
       - unfold storedElapsed. rewrite findAll_table. reflexivity.
       - apply storedElapsed_create.
       - apply storedElapsed_start.
       - exact I.
       - apply storedElapsed_update.
       - apply storedElapsed_delete. }
  all: rewrite run_stop;
    destruct (Repository.lookup id (table w)) as [s |] eqn:Hl;
    [destruct (Stopwatch.isRunning s) eqn:Hr |]; cbn [fst snd].
  - split; discriminate.
  - split; discriminate.
  - split; reflexivity.
  - split; [discriminate | intros (s' & [= <-] & ?); congruence].
  - split; [intros _; exists s; auto | reflexivity].
  - split; [discriminate | intros (s' & [=] & _)].
  - discriminate.
  - reflexivity.
  - reflexivity.
  - intros s' [= <-] _.
    set (total := Stopwatch.elapsed s
                  + secondsBetween (runStart (upcoming w) s) (upcoming w)).
    destruct (lookup_after_save id s (stopped total s) (table w) Hl)
      as [Hsame Hother]; [reflexivity | reflexivity |].
    repeat split; assumption.
  - intros s' [= <-] Hs. congruence.
  - intros s' [=].
Qed.

(** C4 at a stopwatch started at instant 1000 with stored elapsed 10 and
    stopped at instant 6500: the stored elapsed becomes 15. *)
Lemma stop_contract_witness :
  fst (run (stop 1) (worldOf [Stopwatch.mk 1 None "A" true 10 (Some 1000)] 1 6500 0 0))
  = inr (StopwatchDto.mk 1 "A" false 15)
  ∧ Repository.lookup 1
      (table (snd (run (stop 1)
                     (worldOf [Stopwatch.mk 1 None "A" true 10 (Some 1000)] 1 6500 0 0))))
    = Some (Stopwatch.mk 1 None "A" false 15 None).
Proof.
  destruct (stop_contract 1 (worldOf [Stopwatch.mk 1 None "A" true 10 (Some 1000)] 1 6500 0 0))
    as (_ & _ & _ & H & _).
  destruct (H (Stopwatch.mk 1 None "A" true 10 (Some 1000)) eq_refl eq_refl)
    as (Hview & Hrow & _).
  split; [exact Hview | exact Hrow].
Defined.

(** ** C8: delete *)

Lemma Forall2_source {A B} (P : A → B → Prop) (l : list A) (k : list B) :
  Forall2 P l k → ∀ y, In y k → ∃ x, In x l ∧ P x y.
Proof.
  induction 1 as [| x y l k Hxy _ IH]; intros z Hz; [destruct Hz |].
  destruct Hz as [<- | Hz].
  - exists x. split; [now left | exact Hxy].
  - destruct (IH z Hz) as (x' & Hin & Hp). exists x'. split; [now right | exact Hp].
Qed.

Lemma findAll_sources (w : World) :
  ∃ views, fst (run findAll w) = inr views
           ∧ ∀ v, In v views →
                  ∃ s, In s (table w) ∧ Repository.live s = true
                       ∧ StopwatchDto.id v = Stopwatch.id s.
Proof.
  set (rows := merge_sort Repository.byId (List.filter Repository.live (table w))).
  change (run findAll w) with (run (mapM toDto rows) w).
  destruct (run_mapM_toDto rows w) as (views & w' & -> & _ & _ & _ & _ & Hall).
  exists views. split; [reflexivity |].
  intros v Hv.
  destruct (Forall2_source _ _ _ Hall v Hv) as (s & Hs & i & _ & ->).
  assert (In s (List.filter Repository.live (table w))) as Hin.
  { eapply Permutation_in; [apply (merge_sort_Permutation Repository.byId) | exact Hs]. }
  apply filter_In in Hin as [Hin Hlive].
  exists s. auto.
Qed.

Lemma stampRows_live (id : Z) (t : Instant) (rows : list Stopwatch) (s : Stopwatch) :
  In s (Repository.stampRows id t rows) → Repository.live s = true →
  Stopwatch.id s ≠ id.
Proof.
  unfold Repository.stampRows. intros Hin Hlive.
  apply in_map_iff in Hin as (r & <- & _).
  destruct (Repository.hasId id r) eqn:Hr; [discriminate |].
  unfold Repository.hasId in Hr. now apply Z.eqb_neq in Hr.
Qed.

Lemma stampRows_keeps (id : Z) (t : Instant) (rows : list Stopwatch) (s : Stopwatch) :
  In s rows → Stopwatch.id s = id →
  In (Stopwatch.set_deletedAt (Some t) s) (Repository.stampRows id t rows).
Proof.
  intros Hin Hid. unfold Repository.stampRows. apply in_map_iff.
  exists s. split; [| exact Hin].
  unfold Repository.hasId. apply Z.eqb_eq in Hid. rewrite Hid. reflexivity.
Qed.

Lemma retired_lookup (id : Z) (w : World) :
  retired id w → Repository.lookup id (table w) = None.
Proof.
  intros [_ Hrows]. apply lookup_None. intros s Hin Hid.
  rewrite Forall_forall in Hrows. apply Hrows; [apply list_elem_of_In, Hin | exact Hid].
Qed.

Lemma retired_found (id k : Z) (s : Stopwatch) (w : World) :
  retired id w → Repository.lookup k (table w) = Some s → k ≠ id.
Proof.
  intros Hret Hl ->. rewrite (retired_lookup id w Hret) in Hl. discriminate.
Qed.

(** Once retired, an identifier stays retired: the sequence only grows, and
    a request rewrites only the live row it has found. *)
Lemma retired_perform (id : Z) (op : Operation) (w : World) :
  retired id w → retired id (perform op w).
Proof.
  intros Hret. pose proof Hret as [Hseq Hrows]. unfold retired.
  destruct op as [| dto | k | k | k dto | k]; cbn [perform].
  - rewrite findAll_table, findAll_sequence. exact Hret.
  - rewrite run_create. cbn [snd table sequence]. split; [lia |].
    apply Forall_app. split; [exact Hrows |].
    constructor; [| constructor]. cbn [Stopwatch.id]. lia.
  - rewrite run_start.
    destruct (Repository.lookup k (table w)) as [s |] eqn:Hl; [| exact Hret].
    destruct (Stopwatch.isRunning s); [exact Hret |]. cbn [snd table sequence].
    split; [exact Hseq |]. apply Forall_replaceRow; [| exact Hrows].
    pose proof (retired_found id k s w Hret Hl) as Hk.
    apply lookup_Some in Hl as (_ & Hid & _). cbn [started Stopwatch.id
      Stopwatch.set_startTime Stopwatch.set_isRunning]. congruence.
  - rewrite run_stop.
    destruct (Repository.lookup k (table w)) as [s |] eqn:Hl; [| exact Hret].
    destruct (Stopwatch.isRunning s); [| exact Hret]. cbn [snd table sequence].
    split; [exact Hseq |]. apply Forall_replaceRow; [| exact Hrows].
    pose proof (retired_found id k s w Hret Hl) as Hk.
    apply lookup_Some in Hl as (_ & Hid & _). cbn [stopped Stopwatch.id
      Stopwatch.set_startTime Stopwatch.set_isRunning Stopwatch.set_elapsed].
    congruence.
  - rewrite run_update.
    destruct (Repository.lookup k (table w)) as [s |] eqn:Hl; [| exact Hret].
    destruct (truthy _ && _); [exact Hret |].
    rewrite toDto_table, toDto_sequence. cbn [table sequence set_table].
    split; [exact Hseq |]. apply Forall_replaceRow; [| exact Hrows].
    pose proof (retired_found id k s w Hret Hl) as Hk.
    apply lookup_Some in Hl as (_ & Hid & _). rewrite spread_id. congruence.
  - rewrite run_delete.
    destruct (Repository.lookup k (table w)) as [s |] eqn:Hl; [| exact Hret].
    destruct (Stopwatch.isRunning s); [exact Hret |]. cbn [snd table sequence].
    split; [exact Hseq |]. apply Forall_stampRows; [| exact Hrows].
    intros r _ _. reflexivity.
Qed.

Lemma retired_performAll (id : Z) (ops : list Operation) :
  ∀ w, retired id w → retired id (performAll ops w).
Proof.
  unfold performAll.
  induction ops as [| op ops IH]; intros w Hret; [exact Hret |].
  simpl. apply IH, retired_perform, Hret.
Qed.

Lemma retired_unlisted (id : Z) (w : World) :
  retired id w →
  ∃ views, fst (run findAll w) = inr views
           ∧ Forall (λ v, StopwatchDto.id v ≠ id) views.
Proof.
  intros [_ Hrows].
  destruct (findAll_sources w) as (views & Hviews & Hsrc).
  exists views. split; [exact Hviews |].
  apply Forall_forall. intros v Hv. apply list_elem_of_In in Hv.
  destruct (Hsrc v Hv) as (r & Hin & Hlive & ->).
  rewrite Forall_forall in Hrows. intros Hid.
  rewrite (Hrows r) in Hlive; [discriminate | apply list_elem_of_In, Hin | exact Hid].
Qed.

(** C8: [delete id] throws NotFound exactly when no live row has the
    identifier, BadRequest exactly when the live row is running, and a
    failure leaves the world (so the row, still live) as it was.  Otherwise
    it answers ["ok"], the row stays in the table with its soft-delete
    marker set, no live row has the identifier any more, the other rows are
    untouched, and the list that follows has no view with the identifier;
    nor has any later list, whatever requests come in between, when every
    identifier in the table came out of the sequence. *)
Theorem delete_contract (id : Z) (w : World) :
  (fst (run (delete id) w) = inl NotFoundException
     ↔ Repository.lookup id (table w) = None)
  ∧ (fst (run (delete id) w) = inl BadRequestException
     ↔ ∃ s, Repository.lookup id (table w) = Some s ∧ Stopwatch.isRunning s = true)
  ∧ (∀ e, fst (run (delete id) w) = inl e → snd (run (delete id) w) = w)
  ∧ (∀ s, Repository.lookup id (table w) = Some s →
          Stopwatch.isRunning s = false →
          let after := snd (run (delete id) w) in
          fst (run (delete id) w) = inr "ok"%string
          ∧ In (Stopwatch.set_deletedAt (Some (upcoming w)) s) (table after)
          ∧ Repository.lookup id (table after) = None
          ∧ (∀ k, k ≠ id →
                Repository.lookup k (table after) = Repository.lookup k (table w))
          ∧ (∃ views, fst (run findAll after) = inr views
                      ∧ Forall (λ v, StopwatchDto.id v ≠ id) views)
          ∧ (idsBounded w → ∀ ops,
               ∃ views, fst (run findAll (performAll ops after)) = inr views
                        ∧ Forall (λ v, StopwatchDto.id v ≠ id) views)).
Proof.
  rewrite run_delete.
  destruct (Repository.lookup id (table w)) as [s |] eqn:Hl.
  - destruct (Stopwatch.isRunning s) eqn:Hr; cbn [fst snd].
    + split; [split; discriminate |].
      split; [split; [intros _; exists s; auto | reflexivity] |].
      split; [reflexivity |].
      intros s' [= <-] Hs. congruence.
    + split; [split; discriminate |].
      split; [split; [discriminate | intros (s' & [= <-] & ?); congruence] |].
      split; [discriminate |].
      intros s' [= <-] _. cbn [table].
      split; [reflexivity |].
      apply lookup_Some in Hl as (Hin & Hid & _).
      split; [apply stampRows_keeps; assumption |].
      split; [apply lookup_stamp_same |].
      split; [intros k Hk; apply lookup_stamp_other, Hk |].
      assert (Forall (λ r, Stopwatch.id r = id → Repository.live r = false)
                (Repository.stampRows id (upcoming w) (table w))) as Hdead.
      { apply Forall_forall. intros r Hr' Hrid. apply list_elem_of_In in Hr'.
        destruct (Repository.live r) eqn:Hlive; [| reflexivity].
        contradiction (stampRows_live _ _ _ _ Hr' Hlive). }
      split.
      * match goal with |- context [run findAll ?w'] =>
          destruct (findAll_sources w') as (views & Hviews & Hsrc) end.
        exists views. split; [exact Hviews |].
        apply Forall_forall. intros v Hv. apply list_elem_of_In in Hv.
        destruct (Hsrc v Hv) as (r & Hr' & Hlive & ->).
        eapply stampRows_live; [exact Hr' | exact Hlive].
      * intros Hb ops. apply retired_unlisted, retired_performAll.
        split; [| exact Hdead]. cbn [sequence].
        unfold idsBounded in Hb. rewrite Forall_forall in Hb.
        apply list_elem_of_In, Hb in Hin. lia.
  - cbn [fst snd].
    split; [split; reflexivity |].
    split; [split; [discriminate | intros (s & [=] & _)] |].
    split; [reflexivity |].
    intros s [=].
Qed.

(** C8 at a table with a stopped stopwatch 1 and a running stopwatch 2:
    deleting 1 answers ["ok"], no live row carries identifier 1, and after
    a further create and stop the list still has no view of 1. *)
Lemma delete_contract_witness :
  fst (run (delete 1)
         (worldOf [Stopwatch.mk 1 None "A" false 10 None;
                   Stopwatch.mk 2 None "B" true 0 (Some 0)] 2 7000 8000 8000))
  = inr "ok"%string
  ∧ Repository.lookup 1
      (table (snd (run (delete 1)
         (worldOf [Stopwatch.mk 1 None "A" false 10 None;
                   Stopwatch.mk 2 None "B" true 0 (Some 0)] 2 7000 8000 8000))))
    = None
  ∧ ∃ views,
      fst (run findAll
             (performAll [Create (CreateStopwatchDto.mk "C"); Stop 2]
                (snd (run (delete 1)
                   (worldOf [Stopwatch.mk 1 None "A" false 10 None;
                             Stopwatch.mk 2 None "B" true 0 (Some 0)]
                      2 7000 8000 8000)))))
      = inr views
      ∧ Forall (λ v, StopwatchDto.id v ≠ 1) views.
Proof.
  destruct (delete_contract 1
              (worldOf [Stopwatch.mk 1 None "A" false 10 None;
                        Stopwatch.mk 2 None "B" true 0 (Some 0)] 2 7000 8000 8000))
    as (_ & _ & _ & H).
  destruct (H (Stopwatch.mk 1 None "A" false 10 None) eq_refl eq_refl)
    as (Hok & _ & Hgone & _ & _ & Hlater).
  split; [exact Hok |]. split; [exact Hgone |].
  apply Hlater. repeat constructor; cbn; lia.
Defined.

(** ** C9: create *)

(** C9: whatever the world, [create] appends one row with the next
    identifier of the sequence, [isRunning = false], [elapsed = 0],
    [startTime = null] and no soft-delete marker, and returns its view
    (that identifier, the name, not running, elapsed 0).  The rows with
    other identifiers are untouched; when every identifier in the table came
    out of the sequence, the new identifier is fresh: looking it up finds
    the new row. *)
Theorem create_contract (name : string) (w : World) :
  let row := Stopwatch.mk (sequence w + 1) None name false 0 None in
  let after := snd (run (create (CreateStopwatchDto.mk name)) w) in
  fst (run (create (CreateStopwatchDto.mk name)) w)
    = inr (StopwatchDto.mk (sequence w + 1) name false 0)
  ∧ table after = table w ++ [row]
  ∧ sequence after = sequence w + 1
  ∧ (∀ k, k ≠ sequence w + 1 →
        Repository.lookup k (table after) = Repository.lookup k (table w))
  ∧ (idsBounded w →
       Repository.lookup (sequence w + 1) (table after) = Some row
       ∧ idsBounded after).
Proof.
  intros row after. unfold after. rewrite run_create. cbn [fst snd table sequence].
  split; [reflexivity |]. split; [reflexivity |]. split; [reflexivity |].
  split.
  - intros k Hk. rewrite lookup_snoc.
    destruct (Repository.lookup k (table w)); [reflexivity |].
    unfold Repository.hasId. cbn [Stopwatch.id CreateStopwatchDto.name].
    apply Z.eqb_neq in Hk. rewrite Z.eqb_sym, Hk. reflexivity.
  - intros Hb. split.
    + rewrite lookup_snoc.
      destruct (Repository.lookup (sequence w + 1) (table w)) as [r |] eqn:Hl.
      * apply lookup_Some in Hl as (Hin & Hid & _).
        unfold idsBounded in Hb. rewrite Forall_forall in Hb.
        apply list_elem_of_In in Hin. apply Hb in Hin. lia.
      * unfold Repository.hasId. cbn [Stopwatch.id CreateStopwatchDto.name].
        rewrite Z.eqb_refl. reflexivity.
    + unfold idsBounded in *. cbn [table sequence].
      apply Forall_app. split.
      * eapply Forall_impl; [exact Hb |]. intros r Hr. cbn beta in *. lia.
      * constructor; [cbn; lia | constructor].
Qed.

(** C9 in a world that already holds a deleted row and a running one. *)
Lemma create_contract_witness :
  Repository.lookup 3
    (table (snd (run (create (CreateStopwatchDto.mk "C"))
                   (worldOf [Stopwatch.mk 1 (Some 50) "A" false 10 None;
                             Stopwatch.mk 2 None "B" true 0 (Some 0)] 2 0 0 0))))
  = Some (Stopwatch.mk 3 None "C" false 0 None).
Proof.
  destruct (create_contract "C"
              (worldOf [Stopwatch.mk 1 (Some 50) "A" false 10 None;
                        Stopwatch.mk 2 None "B" true 0 (Some 0)] 2 0 0 0))
    as (_ & _ & _ & _ & H).
  refine (proj1 (H _)).
  repeat constructor; cbn; lia.
Defined.

(** ** C3: a start followed by a stop *)

(** C3, as stated, fails: stopwatch 1 has stored elapsed 10; it is started
    when the clock reads 5000 ms and stopped when the clock reads 0 (a clock
    set back by five seconds).  Both requests succeed and the stored elapsed
    drops to 5. *)
Lemma start_stop_monotone_counterexample :
  fst (run (start 1) (worldOf [Stopwatch.mk 1 None "A" false 10 None] 1 5000 5000 0))
  = inr (StopwatchDto.mk 1 "A" true 10)
  ∧ fst (run (stop 1)
           (snd (run (start 1)
                   (worldOf [Stopwatch.mk 1 None "A" false 10 None] 1 5000 5000 0))))
    = inr (StopwatchDto.mk 1 "A" false 5)
  ∧ storedElapsed 1 (worldOf [Stopwatch.mk 1 None "A" false 10 None] 1 5000 5000 0)
    = Some 10
  ∧ storedElapsed 1
      (snd (run (stop 1)
              (snd (run (start 1)
                      (worldOf [Stopwatch.mk 1 None "A" false 10 None] 1 5000 5000 0)))))
    = Some 5.
Proof. repeat split. Qed.

(** C3 (amended): take a live stopped stopwatch with stored elapsed [E],
    start it at instant [t1] and stop it at instant [t2], in a world where
    its row is still the one the start left.  Both requests succeed, and the
    stored elapsed after the stop is [E + floor((t2 - t1) / 1000)]: it is at
    least [E] exactly when [t2] is not earlier than [t1]. *)
Theorem start_stop_cycle (id : Z) (s : Stopwatch) (w between : World) :
  Repository.lookup id (table w) = Some s →
  Stopwatch.isRunning s = false →
  Repository.lookup id (table between)
    = Repository.lookup id (table (snd (run (start id) w))) →
  let total := Stopwatch.elapsed s
               + secondsBetween (upcoming w) (upcoming between) in
  (∃ v, fst (run (start id) w) = inr v)
  ∧ (∃ v, fst (run (stop id) between) = inr v)
  ∧ storedElapsed id (snd (run (stop id) between)) = Some total
  ∧ (Stopwatch.elapsed s ≤ total ↔ upcoming w ≤ upcoming between).
Proof.
  intros Hl Hr Hbetween total.
  rewrite run_start, Hl, Hr in Hbetween |- *. cbn [fst snd table] in Hbetween |- *.
  destruct (lookup_after_save id s (started (upcoming w) s) (table w) Hl)
    as [Hstarted _]; [reflexivity | reflexivity |].
  rewrite Hstarted in Hbetween.
  split; [eexists; reflexivity |].
  unfold storedElapsed. rewrite run_stop, Hbetween.
  change (Stopwatch.isRunning (started (upcoming w) s)) with true.
  cbn [fst snd table].
  split; [eexists; reflexivity |].
  split.
  - match goal with |- context [Repository.replaceRow ?s' _] =>
      destruct (lookup_after_save id (started (upcoming w) s) s' (table between)
                  Hbetween) as [-> _]; [reflexivity | reflexivity |] end.
    reflexivity.
  - unfold total.
    pose proof (secondsBetween_nonneg (upcoming w) (upcoming between)). lia.
Qed.

(** The amended C3 on the scenario of the specification: started at 0,
    stopped five seconds later, the stored elapsed goes from 10 to 15. *)
Lemma start_stop_cycle_witness :
  storedElapsed 1
    (snd (run (stop 1)
            (snd (run (start 1)
                    (worldOf [Stopwatch.mk 1 None "A" false 10 None] 1 0 0 5000)))))
  = Some 15.
Proof.
  refine (proj1 (proj2 (proj2
    (start_stop_cycle 1 (Stopwatch.mk 1 None "A" false 10 None)
       (worldOf [Stopwatch.mk 1 None "A" false 10 None] 1 0 0 5000)
       (snd (run (start 1)
               (worldOf [Stopwatch.mk 1 None "A" false 10 None] 1 0 0 5000)))
       _ _ _)))); reflexivity.
Defined.

(** ** C6: running exactly when a start time is set *)

Lemma consistent_found (id : Z) (s : Stopwatch) (w : World) :
  invariant w → Repository.lookup id (table w) = Some s → consistent s.
Proof.
  intros Hinv Hl. apply lookup_Some in Hl as (Hin & _).
  unfold invariant in Hinv. rewrite Forall_forall in Hinv.
  apply Hinv, list_elem_of_In, Hin.
Qed.

Lemma perform_invariant (op : Operation) (w : World) :
  invariant w → invariant (perform op w).
Proof.
  intros Hinv. unfold invariant in *.
  destruct op as [| dto | id | id | id dto | id]; cbn [perform].
  - rewrite findAll_table. exact Hinv.
  - rewrite run_create. cbn [snd table]. apply Forall_app. split; [exact Hinv |].
    constructor; [| constructor]. split; [discriminate | intros H; now contradiction H].
  - rewrite run_start.
    destruct (Repository.lookup id (table w)) as [s |]; [| exact Hinv].
    destruct (Stopwatch.isRunning s); [exact Hinv |]. cbn [snd table].
    apply Forall_replaceRow; [| exact Hinv].
    split; [discriminate | reflexivity].
  - rewrite run_stop.
    destruct (Repository.lookup id (table w)) as [s |]; [| exact Hinv].
    destruct (Stopwatch.isRunning s); [| exact Hinv]. cbn [snd table].
    apply Forall_replaceRow; [| exact Hinv].
    split; [discriminate | intros H; now contradiction H].
  - rewrite run_update.
    destruct (Repository.lookup id (table w)) as [s |] eqn:Hl; [| exact Hinv].
    destruct (truthy _ && _); [exact Hinv |].
    rewrite toDto_table. cbn [table set_table].
    apply Forall_replaceRow; [| exact Hinv].
    pose proof (consistent_found id s w Hinv Hl) as Hs.
    unfold consistent in *. rewrite spread_isRunning, spread_startTime. exact Hs.
  - rewrite run_delete.
    destruct (Repository.lookup id (table w)) as [s |]; [| exact Hinv].
    destruct (Stopwatch.isRunning s); [exact Hinv |]. cbn [snd table].
    apply Forall_stampRows; [intros r Hr; exact Hr | exact Hinv].
Qed.

(** From the empty table, every sequence of requests leaves a table in which
    each row is running exactly when it has a start time. *)
Lemma invariant_reachable (ops : list Operation) :
  ∀ w, invariant w → invariant (foldl (λ w' op, perform op w') w ops).
Proof.
  induction ops as [| op ops IH]; intros w Hinv; [exact Hinv |].
  simpl. apply IH, perform_invariant, Hinv.
Qed.

(** C6: if every row of the table is running exactly when its start time is
    set, the same holds of every row after any one request (list, create,
    start, stop, update or delete), whether it succeeds or fails. *)
Theorem invariant_preserved (op : Operation) (w : World) :
  (∀ s, In s (table w) → consistent s) →
  ∀ s, In s (table (perform op w)) → consistent s.
Proof.
  intros Hinv s Hs.
  assert (invariant (perform op w)) as H.
  { apply perform_invariant. unfold invariant. apply Forall_forall.
    intros r Hr. apply Hinv, list_elem_of_In, Hr. }
  unfold invariant in H. rewrite Forall_forall in H.
  apply H, list_elem_of_In, Hs.
Qed.

(** C6 at the start of a stopped stopwatch: the stored row is consistent. *)
Lemma invariant_preserved_witness :
  consistent (Stopwatch.mk 1 None "A" true 10 (Some 0)).
Proof.
  apply (invariant_preserved (Start 1)
           (worldOf [Stopwatch.mk 1 None "A" false 10 None] 1 0 0 0)).
  - intros s [<- | []]. unfold consistent. simpl.
    split; [discriminate | intros H; now contradiction H].
  - simpl. left. reflexivity.
Defined.

(** ** The identifiers and the sequence *)

Lemma idsBounded_perform (op : Operation) (w : World) :
  idsBounded w → idsBounded (perform op w).
Proof.
  intros Hb. unfold idsBounded in *.
  destruct op as [| dto | k | k | k dto | k]; cbn [perform].
  - rewrite findAll_table, findAll_sequence. exact Hb.
  - rewrite run_create. cbn [snd table sequence]. apply Forall_app. split.
    + eapply Forall_impl; [exact Hb |]. intros r Hr. cbn beta in *. lia.
    + constructor; [cbn; lia | constructor].
  - rewrite run_start.
    destruct (Repository.lookup k (table w)) as [s |] eqn:Hl; [| exact Hb].
    destruct (Stopwatch.isRunning s); [exact Hb |]. cbn [snd table sequence].
    apply Forall_replaceRow; [| exact Hb].
    apply lookup_Some in Hl as (Hin & _).
    rewrite Forall_forall in Hb. apply list_elem_of_In, Hb in Hin. exact Hin.
  - rewrite run_stop.
    destruct (Repository.lookup k (table w)) as [s |] eqn:Hl; [| exact Hb].
    destruct (Stopwatch.isRunning s); [| exact Hb]. cbn [snd table sequence].
    apply Forall_replaceRow; [| exact Hb].
    apply lookup_Some in Hl as (Hin & _).
    rewrite Forall_forall in Hb. apply list_elem_of_In, Hb in Hin. exact Hin.
  - rewrite run_update.
    destruct (Repository.lookup k (table w)) as [s |] eqn:Hl; [| exact Hb].
    destruct (truthy _ && _); [exact Hb |].
    rewrite toDto_table, toDto_sequence. cbn [table sequence set_table].
    apply Forall_replaceRow; [| exact Hb]. rewrite spread_id.
    apply lookup_Some in Hl as (Hin & _).
    rewrite Forall_forall in Hb. apply list_elem_of_In, Hb in Hin. exact Hin.
  - rewrite run_delete.
    destruct (Repository.lookup k (table w)) as [s |] eqn:Hl; [| exact Hb].
    destruct (Stopwatch.isRunning s); [exact Hb |]. cbn [snd table sequence].
    apply Forall_stampRows; [| exact Hb]. intros r Hr. exact Hr.
Qed.

(** Starting from an empty table, every table the requests can produce has
    its identifiers below the sequence and each row running exactly when it
    has a start time. *)
Lemma reachable_wellformed (ops : list Operation) (seq : Z) (c : nat → Instant) (n : nat) :
  idsBounded (performAll ops (mkWorld [] seq c n))
  ∧ invariant (performAll ops (mkWorld [] seq c n)).
Proof.
  unfold performAll.
  assert (∀ w, idsBounded w ∧ invariant w →
               idsBounded (foldl (λ w' op, perform op w') w ops)
               ∧ invariant (foldl (λ w' op, perform op w') w ops)) as H.
  { induction ops as [| op ops IH]; intros w [Hb Hi]; [auto |].
    simpl. apply IH. split; [apply idsBounded_perform, Hb | apply perform_invariant, Hi]. }
  apply H. split; constructor.
Qed.

(** ** The scenario of the specification *)

Example scenario_answers :
  fst (run (create (CreateStopwatchDto.mk "A")) (mkWorld [] 0 scenarioClock 0))
  = inr (StopwatchDto.mk 1 "A" false 0)
  ∧ fst (run (start 1) (performAll (take 1 scenario) (mkWorld [] 0 scenarioClock 0)))
    = inr (StopwatchDto.mk 1 "A" true 0)
  ∧ fst (run (stop 1) (performAll (take 2 scenario) (mkWorld [] 0 scenarioClock 0)))
    = inr (StopwatchDto.mk 1 "A" false 5)
  ∧ fst (run (update 1 (UpdateStopwatchDto.mk None (Some 100)))
           (performAll (take 3 scenario) (mkWorld [] 0 scenarioClock 0)))
    = inr (StopwatchDto.mk 1 "A" false 100)
  ∧ fst (run (start 1) (performAll (take 4 scenario) (mkWorld [] 0 scenarioClock 0)))
    = inr (StopwatchDto.mk 1 "A" true 100)
  ∧ fst (run (update 1 (UpdateStopwatchDto.mk None (Some 1)))
           (performAll (take 5 scenario) (mkWorld [] 0 scenarioClock 0)))
    = inl BadRequestException
  ∧ storedElapsed 1 (performAll (take 6 scenario) (mkWorld [] 0 scenarioClock 0))
    = Some 100
  ∧ fst (run (delete 1) (performAll (take 6 scenario) (mkWorld [] 0 scenarioClock 0)))
    = inl BadRequestException
  ∧ fst (run (stop 1) (performAll (take 7 scenario) (mkWorld [] 0 scenarioClock 0)))
    = inr (StopwatchDto.mk 1 "A" false 100)
  ∧ fst (run (delete 1) (performAll (take 8 scenario) (mkWorld [] 0 scenarioClock 0)))
    = inr "ok"%string
  ∧ fst (run findAll (performAll scenario (mkWorld [] 0 scenarioClock 0)))
    = inr []
  ∧ table (performAll scenario (mkWorld [] 0 scenarioClock 0))
    = [Stopwatch.mk 1 (Some 7000) "A" false 100 None].
Proof. repeat split. Qed.

(** * Further properties of the service *)

(** ** update *)

(** X1: [update id dto] throws NotFound exactly when no live row has the
    identifier and BadRequest exactly when the live row is running and the
    patch carries a non-zero [elapsed]; a failure leaves the world as it was.
    Otherwise the row is stored with the name and the elapsed of the patch
    where the patch has them and its own elsewhere, [isRunning] and
    [startTime] as they were, the other rows are untouched, and the view is
    the one of the stored row at the instant read (if the row is running). *)
Theorem update_contract (id : Z) (dto : UpdateStopwatchDto) (w : World) :
  (fst (run (update id dto) w) = inl NotFoundException
     ↔ Repository.lookup id (table w) = None)
  ∧ (fst (run (update id dto) w) = inl BadRequestException
     ↔ ∃ s n, Repository.lookup id (table w) = Some s
              ∧ Stopwatch.isRunning s = true
              ∧ UpdateStopwatchDto.elapsed dto = Some n ∧ n ≠ 0)
  ∧ (∀ e, fst (run (update id dto) w) = inl e → snd (run (update id dto) w) = w)
  ∧ (∀ s, Repository.lookup id (table w) = Some s →
          truthy (UpdateStopwatchDto.elapsed dto) && Stopwatch.isRunning s = false →
          let s' := spread s dto in
          let after := snd (run (update id dto) w) in
          fst (run (update id dto) w) = inr (viewOf (effective (upcoming w) s') s')
          ∧ Repository.lookup id (table after) = Some s'
          ∧ (∀ k, k ≠ id →
                Repository.lookup k (table after) = Repository.lookup k (table w))
          ∧ Stopwatch.name s'
            = default (Stopwatch.name s) (UpdateStopwatchDto.name dto)
          ∧ Stopwatch.elapsed s'
            = default (Stopwatch.elapsed s) (UpdateStopwatchDto.elapsed dto)
          ∧ Stopwatch.isRunning s' = Stopwatch.isRunning s
          ∧ Stopwatch.startTime s' = Stopwatch.startTime s).
Proof.
  split; [| split; [apply update_rejects_iff |]].
  - rewrite run_update.
    destruct (Repository.lookup id (table w)) as [s |] eqn:Hl; [| split; reflexivity].
    destruct (truthy _ && _); [split; discriminate |].
    rewrite run_toDto. split; discriminate.
  - rewrite run_update.
    destruct (Repository.lookup id (table w)) as [s |] eqn:Hl.
    + destruct (truthy _ && _) eqn:Hg.
      * split; [reflexivity |]. intros s' [= <-] Hg'. congruence.
      * rewrite run_toDto. split; [discriminate |].
        intros s' [= <-] _. cbn [fst snd].
        destruct (lookup_after_save id s (spread s dto) (table w) Hl)
          as [Hsame Hother]; [apply spread_id | apply spread_deletedAt |].
        assert (∀ w0 : World,
                  table (if Stopwatch.isRunning (spread s dto) then tick w0 else w0)
                  = table w0) as Htab
          by (intros w0; destruct (Stopwatch.isRunning (spread s dto)); reflexivity).
        rewrite Htab. cbn [table set_table].
        split; [reflexivity |]. split; [exact Hsame |]. split; [exact Hother |].
        split; [destruct dto as [[n |] [e |]]; reflexivity |].
        split; [apply spread_elapsed |].
        split; [apply spread_isRunning | apply spread_startTime].
    + split; [reflexivity |]. intros s [=].
Qed.

(** X1 on a running stopwatch renamed while it runs: the stored elapsed and
    start time stay, the view shows the live elapsed. *)
Lemma update_contract_witness :
  fst (run (update 1 (UpdateStopwatchDto.mk (Some "B"%string) None))
         (worldOf [Stopwatch.mk 1 None "A" true 10 (Some 0)] 1 3000 0 0))
  = inr (StopwatchDto.mk 1 "B" true 13)
  ∧ Repository.lookup 1
      (table (snd (run (update 1 (UpdateStopwatchDto.mk (Some "B"%string) None))
                     (worldOf [Stopwatch.mk 1 None "A" true 10 (Some 0)] 1 3000 0 0))))
    = Some (Stopwatch.mk 1 None "B" true 10 (Some 0)).
Proof.
  destruct (update_contract 1 (UpdateStopwatchDto.mk (Some "B"%string) None)
              (worldOf [Stopwatch.mk 1 None "A" true 10 (Some 0)] 1 3000 0 0))
    as (_ & _ & _ & H).
  destruct (H (Stopwatch.mk 1 None "A" true 10 (Some 0)) eq_refl eq_refl)
    as (Hview & Hrow & _).
  split; [exact Hview | exact Hrow].
Defined.

Lemma replaceRow_idem (s : Stopwatch) (rows : list Stopwatch) :
  Repository.replaceRow s (Repository.replaceRow s rows) = Repository.replaceRow s rows.
Proof.
  unfold Repository.replaceRow. rewrite map_map. apply map_ext. intros r.
  destruct (Repository.hasId (Stopwatch.id s) r) eqn:Hr; [| rewrite Hr; reflexivity].
  unfold Repository.hasId. rewrite Z.eqb_refl. reflexivity.
Qed.

Lemma spread_idem (s : Stopwatch) (dto : UpdateStopwatchDto) :
  spread (spread s dto) dto = spread s dto.
Proof. destruct dto as [[n |] [e |]]; reflexivity. Qed.

(** X2: an update is idempotent on the table: sent twice in a row, the same
    patch leaves the rows the first one left (whether it was accepted or
    rejected). *)
Theorem update_idempotent (id : Z) (dto : UpdateStopwatchDto) (w : World) :
  table (perform (Update id dto) (perform (Update id dto) w))
  = table (perform (Update id dto) w).
Proof.
  cbn [perform].
  destruct (Repository.lookup id (table w)) as [s |] eqn:Hl.
  - destruct (truthy (UpdateStopwatchDto.elapsed dto) && Stopwatch.isRunning s) eqn:Hg.
    + assert (snd (run (update id dto) w) = w) as Hw
        by (rewrite run_update, Hl, Hg; reflexivity).
      rewrite !Hw. reflexivity.
    + assert (table (snd (run (update id dto) w))
              = Repository.replaceRow (spread s dto) (table w)) as Hfirst
        by (rewrite run_update, Hl, Hg, toDto_table; reflexivity).
      destruct (lookup_after_save id s (spread s dto) (table w) Hl)
        as [Hsame _]; [apply spread_id | apply spread_deletedAt |].
      rewrite (run_update id dto (snd (run (update id dto) w))).
      rewrite Hfirst, Hsame, spread_isRunning, Hg, toDto_table.
      cbn [table set_table]. rewrite spread_idem. apply replaceRow_idem.
  - assert (snd (run (update id dto) w) = w) as Hw
      by (rewrite run_update, Hl; reflexivity).
    rewrite !Hw. reflexivity.
Qed.

(** ** Starting and stopping in turn *)

Lemma start_ok (id : Z) (s : Stopwatch) (w : World) :
  Repository.lookup id (table w) = Some s →
  Stopwatch.isRunning s = false →
  Repository.lookup id (table (perform (Start id) w)) = Some (started (upcoming w) s)
  ∧ sequence (perform (Start id) w) = sequence w
  ∧ clock (perform (Start id) w) = clock w
  ∧ reads (perform (Start id) w) = S (S (reads w)).
Proof.
  intros Hl Hr. cbn [perform]. rewrite run_start, Hl, Hr. cbn [snd table].
  destruct (lookup_after_save id s (started (upcoming w) s) (table w) Hl)
    as [Hsame _]; [reflexivity | reflexivity |].
  auto.
Qed.

Lemma stop_ok (id : Z) (s : Stopwatch) (w : World) :
  Repository.lookup id (table w) = Some s →
  Stopwatch.isRunning s = true →
  Repository.lookup id (table (perform (Stop id) w))
  = Some (stopped (Stopwatch.elapsed s
                   + secondsBetween (runStart (upcoming w) s) (upcoming w)) s)
  ∧ sequence (perform (Stop id) w) = sequence w
  ∧ clock (perform (Stop id) w) = clock w
  ∧ reads (perform (Stop id) w) = S (reads w).
Proof.
  intros Hl Hr. cbn [perform]. rewrite run_stop, Hl, Hr. cbn [snd table].
  match goal with |- context [Repository.replaceRow ?s' _] =>
    destruct (lookup_after_save id s s' (table w) Hl)
      as [Hsame _]; [reflexivity | reflexivity |] end.
  auto.
Qed.

(** X3: the two states alternate.  Once a stopped stopwatch has been
    started, a second start and a delete are both rejected with BadRequest
    and change nothing, while a stop is accepted; once it has been stopped
    again, a second stop is rejected and changes nothing, while a start or a
    delete is accepted. *)
Theorem start_stop_alternate (id : Z) (s : Stopwatch) (w : World) :
  Repository.lookup id (table w) = Some s →
  Stopwatch.isRunning s = false →
  let running := perform (Start id) w in
  let halted := perform (Stop id) running in
  run (start id) running = (inl BadRequestException, running)
  ∧ run (delete id) running = (inl BadRequestException, running)
  ∧ (∃ v, fst (run (stop id) running) = inr v)
  ∧ run (stop id) halted = (inl BadRequestException, halted)
  ∧ (∃ v, fst (run (start id) halted) = inr v)
  ∧ fst (run (delete id) halted) = inr "ok"%string.
Proof.
  intros Hl Hr running halted.
  destruct (start_ok id s w Hl Hr) as (Hrun & _).
  fold running in Hrun.
  destruct (stop_ok id (started (upcoming w) s) running Hrun eq_refl) as (Hhalt & _).
  fold halted in Hhalt.
  rewrite (run_start id running), (run_delete id running), (run_stop id running), Hrun.
  rewrite (run_start id halted), (run_delete id halted), (run_stop id halted), Hhalt.
  cbn [started stopped Stopwatch.isRunning Stopwatch.set_startTime
       Stopwatch.set_isRunning Stopwatch.set_elapsed fst].
  repeat split; eexists; reflexivity.
Qed.

(** X3 on stopwatch 1 with the clock standing at 0. *)
Lemma start_stop_alternate_witness :
  run (start 1)
    (perform (Start 1) (worldOf [Stopwatch.mk 1 None "A" false 10 None] 1 0 0 0))
  = (inl BadRequestException,
     perform (Start 1) (worldOf [Stopwatch.mk 1 None "A" false 10 None] 1 0 0 0)).
Proof.
  refine (proj1 (start_stop_alternate 1 (Stopwatch.mk 1 None "A" false 10 None)
                   (worldOf [Stopwatch.mk 1 None "A" false 10 None] 1 0 0 0) _ _));
    reflexivity.
Defined.

(** ** Rounds of start and stop *)

Lemma performAll_cons (op : Operation) (ops : list Operation) (w : World) :
  performAll (op :: ops) w = performAll ops (perform op w).
Proof. reflexivity. Qed.

Lemma cycles_stored (id : Z) (n : nat) :
  ∀ (w : World) (s : Stopwatch),
    Repository.lookup id (table w) = Some s →
    Stopwatch.isRunning s = false →
    ∃ s', Repository.lookup id (table (performAll (cycles id n) w)) = Some s'
          ∧ Stopwatch.isRunning s' = false
          ∧ Stopwatch.elapsed s'
            = Stopwatch.elapsed s
              + sumZ (map (λ d, d / 1000) (runLengths (clock w) (reads w) n)).
Proof.
  induction n as [| n IH]; intros w s Hl Hr.
  - exists s. cbn. rewrite Z.add_0_r. auto.
  - cbn [cycles]. rewrite !performAll_cons.
    destruct (start_ok id s w Hl Hr) as (Hrun & _ & Hc1 & Hr1).
    destruct (stop_ok id _ _ Hrun eq_refl) as (Hhalt & _ & Hc2 & Hr2).
    destruct (IH _ _ Hhalt eq_refl) as (s' & Hl' & Hr' & He').
    exists s'. split; [exact Hl' |]. split; [exact Hr' |].
    assert (upcoming (perform (Start id) w) = clock w (S (S (reads w)))) as Hup
      by (unfold upcoming; rewrite Hc1, Hr1; reflexivity).
    rewrite He', Hup, Hc2, Hc1, Hr2, Hr1.
    unfold runStart, secondsBetween, upcoming, sumZ. cbn. lia.
Qed.

(** X4: after [n] rounds of start and stop on a stopped stopwatch, the
    stored elapsed is the old one plus, for each round, the whole seconds of
    that round alone (from the reading stored at the start to the reading
    taken at the stop): the remainder of each round is dropped. *)
Theorem cycles_elapsed (id : Z) (n : nat) (s : Stopwatch) (w : World) :
  Repository.lookup id (table w) = Some s →
  Stopwatch.isRunning s = false →
  storedElapsed id (performAll (cycles id n) w)
  = Some (Stopwatch.elapsed s
          + sumZ (map (λ d, d / 1000) (runLengths (clock w) (reads w) n))).
Proof.
  intros Hl Hr. destruct (cycles_stored id n w s Hl Hr) as (s' & Hl' & _ & He').
  unfold storedElapsed. rewrite Hl'. cbn. rewrite He'. reflexivity.
Qed.

(** X4 on two rounds of 2.5 s and 1.7 s: 3 whole seconds are stored for 4.2 s
    of running time. *)
Lemma cycles_elapsed_witness :
  storedElapsed 1
    (performAll (cycles 1 2)
       (mkWorld [Stopwatch.mk 1 None "A" false 0 None] 1
          (λ n, nth n [0; 0; 2500; 10000; 10000; 11700] 0) 0))
  = Some 3.
Proof.
  refine (cycles_elapsed 1 2 (Stopwatch.mk 1 None "A" false 0 None)
            (mkWorld [Stopwatch.mk 1 None "A" false 0 None] 1
               (λ n, nth n [0; 0; 2500; 10000; 10000; 11700] 0) 0) _ _);
    reflexivity.
Defined.

Lemma subsecond_sum (l : list Z) :
  Forall (λ d, 0 ≤ d < 1000) l → sumZ (map (λ d, d / 1000) l) = 0.
Proof.
  induction 1 as [| d l Hd _ IH]; [reflexivity |].
  unfold sumZ in *. cbn. rewrite IH, Z.div_small by exact Hd. reflexivity.
Qed.

(** X5: rounds shorter than a second are lost.  However many rounds of start
    and stop a stopwatch goes through, if each of them lasts less than 1000
    ms the stored elapsed does not move. *)
Theorem subsecond_cycles_lost (id : Z) (n : nat) (s : Stopwatch) (w : World) :
  Repository.lookup id (table w) = Some s →
  Stopwatch.isRunning s = false →
  Forall (λ d, 0 ≤ d < 1000) (runLengths (clock w) (reads w) n) →
  storedElapsed id (performAll (cycles id n) w) = Some (Stopwatch.elapsed s).
Proof.
  intros Hl Hr Hshort.
  destruct (cycles_stored id n w s Hl Hr) as (s' & Hl' & _ & He').
  unfold storedElapsed. rewrite Hl'. cbn. rewrite He', subsecond_sum by exact Hshort.
  rewrite Z.add_0_r. reflexivity.
Qed.

(** X5 on three rounds of 999 ms each: nothing is stored. *)
Lemma subsecond_cycles_lost_witness :
  storedElapsed 1
    (performAll (cycles 1 3)
       (mkWorld [Stopwatch.mk 1 None "A" false 7 None] 1
          (λ n, nth n [0; 0; 999; 2000; 2000; 2999; 4000; 4000; 4999] 0) 0))
  = Some 7.
Proof.
  refine (subsecond_cycles_lost 1 3 (Stopwatch.mk 1 None "A" false 7 None)
            (mkWorld [Stopwatch.mk 1 None "A" false 7 None] 1
               (λ n, nth n [0; 0; 999; 2000; 2000; 2999; 4000; 4000; 4999] 0) 0)
            _ _ _); [reflexivity | reflexivity |].
  repeat constructor; cbn; lia.
Defined.

(** ** After a delete *)

(** X6: a deleted stopwatch is gone for good.  After a successful delete,
    and whatever requests follow, a start, a stop, an update or a delete of
    the same identifier throws NotFound (in a table whose identifiers all
    came out of the sequence, so that the identifier is never handed out
    again). *)
Theorem deleted_is_terminal (id : Z) (s : Stopwatch) (w : World)
    (ops : list Operation) (dto : UpdateStopwatchDto) :
  idsBounded w →
  Repository.lookup id (table w) = Some s →
  Stopwatch.isRunning s = false →
  let later := performAll ops (perform (Delete id) w) in
  run (start id) later = (inl NotFoundException, later)
  ∧ run (stop id) later = (inl NotFoundException, later)
  ∧ run (update id dto) later = (inl NotFoundException, later)
  ∧ run (delete id) later = (inl NotFoundException, later).
Proof.
  intros Hb Hl Hr later.
  assert (retired id (perform (Delete id) w)) as Hret.
  { cbn [perform]. rewrite run_delete, Hl, Hr. cbn [snd]. split; cbn [sequence table].
    - apply lookup_Some in Hl as (Hin & Hid & _).
      unfold idsBounded in Hb. rewrite Forall_forall in Hb.
      apply list_elem_of_In, Hb in Hin. lia.
    - apply Forall_forall. intros r Hin Hid. apply list_elem_of_In in Hin.
      destruct (Repository.live r) eqn:Hlive; [| reflexivity].
      contradiction (stampRows_live _ _ _ _ Hin Hlive). }
  pose proof (retired_lookup id later (retired_performAll id ops _ Hret)) as Hnone.
  rewrite run_start, run_stop, run_update, run_delete, Hnone. auto.
Qed.

(** X6 on stopwatch 1, deleted and then looked for after a create. *)
Lemma deleted_is_terminal_witness :
  run (start 1)
    (performAll [Create (CreateStopwatchDto.mk "B")]
       (perform (Delete 1) (worldOf [Stopwatch.mk 1 None "A" false 10 None] 1 0 0 0)))
  = (inl NotFoundException,
     performAll [Create (CreateStopwatchDto.mk "B")]
       (perform (Delete 1) (worldOf [Stopwatch.mk 1 None "A" false 10 None] 1 0 0 0))).
Proof.
  refine (proj1 (deleted_is_terminal 1 (Stopwatch.mk 1 None "A" false 10 None)
                   (worldOf [Stopwatch.mk 1 None "A" false 10 None] 1 0 0 0)
                   [Create (CreateStopwatchDto.mk "B")]
                   (UpdateStopwatchDto.mk None None) _ _ _));
    [repeat constructor; cbn; lia | reflexivity | reflexivity].
Defined.

(** ** The primary key *)

Lemma ids_replaceRow (s : Stopwatch) (rows : list Stopwatch) :
  map Stopwatch.id (Repository.replaceRow s rows) = map Stopwatch.id rows.
Proof.
  unfold Repository.replaceRow. rewrite map_map. apply map_ext_in. intros r _.
  destruct (Repository.hasId (Stopwatch.id s) r) eqn:Hr; [| reflexivity].
  unfold Repository.hasId in Hr. apply Z.eqb_eq in Hr. congruence.
Qed.

Lemma ids_stampRows (id : Z) (t : Instant) (rows : list Stopwatch) :
  map Stopwatch.id (Repository.stampRows id t rows) = map Stopwatch.id rows.
Proof.
  unfold Repository.stampRows. rewrite map_map. apply map_ext. intros r.
  destruct (Repository.hasId id r); reflexivity.
Qed.

Lemma perform_ids (op : Operation) (w : World) :
  map Stopwatch.id (table (perform op w))
  = match op with
    | Create _ => map Stopwatch.id (table w) ++ [sequence w + 1]
    | _ => map Stopwatch.id (table w)
    end.
Proof.
  destruct op as [| dto | k | k | k dto | k]; cbn [perform].
  - rewrite findAll_table. reflexivity.
  - rewrite run_create. cbn [snd table]. rewrite map_app. reflexivity.
  - rewrite run_start. destruct (Repository.lookup k (table w)) as [s |]; [| reflexivity].
    destruct (Stopwatch.isRunning s); [reflexivity |]. apply ids_replaceRow.
  - rewrite run_stop. destruct (Repository.lookup k (table w)) as [s |]; [| reflexivity].
    destruct (Stopwatch.isRunning s); [| reflexivity]. apply ids_replaceRow.
  - rewrite run_update. destruct (Repository.lookup k (table w)) as [s |]; [| reflexivity].
    destruct (truthy _ && _); [reflexivity |]. rewrite toDto_table. apply ids_replaceRow.
  - rewrite run_delete. destruct (Repository.lookup k (table w)) as [s |]; [| reflexivity].
    destruct (Stopwatch.isRunning s); [reflexivity |]. apply ids_stampRows.
Qed.

Lemma wellKeyed_perform (op : Operation) (w : World) :
  wellKeyed w → wellKeyed (perform op w).
Proof.
  intros [Hnd Hb]. split; [| apply idsBounded_perform, Hb].
  rewrite perform_ids. destruct op; try exact Hnd.
  apply NoDup_app. split; [exact Hnd |]. split; [| apply NoDup_singleton].
  intros k Hk Hnew. apply list_elem_of_singleton in Hnew. subst k.
  apply list_elem_of_fmap in Hk as (r & Hid & Hr).
  unfold idsBounded in Hb. rewrite Forall_forall in Hb. apply Hb in Hr. lia.
Qed.

(** X7: the primary key holds.  If the identifiers of the table are pairwise
    distinct and none is past the sequence, the same is true after any
    sequence of requests: a request never duplicates an identifier and a
    create never hands out one that is, or was, in use. *)
Theorem wellKeyed_preserved (ops : list Operation) (w : World) :
  wellKeyed w → wellKeyed (performAll ops w).
Proof.
  revert w. unfold performAll.
  induction ops as [| op ops IH]; intros w Hw; [exact Hw |].
  simpl. apply IH, wellKeyed_perform, Hw.
Qed.

(** X7 from the empty table: create, delete, create gives identifiers 1 and 2. *)
Lemma wellKeyed_preserved_witness :
  wellKeyed (performAll [Create (CreateStopwatchDto.mk "A"); Delete 1;
                         Create (CreateStopwatchDto.mk "B")]
               (worldOf [] 0 0 0 0)).
Proof.
  apply (wellKeyed_preserved _ (worldOf [] 0 0 0 0)).
  split; constructor.
Defined.

(** ** More on the list *)

Lemma NoDup_ids_live (rows : list Stopwatch) :
  NoDup (map Stopwatch.id rows) →
  NoDup (map Stopwatch.id (List.filter Repository.live rows)).
Proof.
  induction rows as [| r rows IH]; intros Hnd; [constructor |].
  cbn in *. apply NoDup_cons in Hnd as [Hr Hnd].
  destruct (Repository.live r); [| apply IH, Hnd].
  cbn. apply NoDup_cons. split; [| apply IH, Hnd].
  intros Hin. apply Hr. apply list_elem_of_In in Hin.
  apply in_map_iff in Hin as (r' & Hid & Hin). apply filter_In in Hin as [Hin _].
  apply list_elem_of_In, in_map_iff. exists r'. auto.
Qed.

Lemma strictly_sorted (l : list Z) :
  StronglySorted Z.le l → NoDup l → StronglySorted Z.lt l.
Proof.
  induction 1 as [| x l Hs IH Hx]; intros Hnd; constructor.
  - apply IH. apply NoDup_cons in Hnd. tauto.
  - apply NoDup_cons in Hnd as [Hnot _].
    rewrite Forall_forall in *. intros y Hy.
    pose proof (Hx y Hy). assert (x ≠ y) by (intros ->; contradiction). lia.
Qed.

(** X8: no stopwatch is listed twice.  When the identifiers of the table
    are pairwise distinct, the identifiers of the views of [findAll] are
    strictly ascending, and there are as many views as non-deleted rows. *)
Theorem findAll_distinct (w : World) :
  NoDup (map Stopwatch.id (table w)) →
  ∃ views, fst (run findAll w) = inr views
           ∧ StronglySorted Z.lt (map StopwatchDto.id views)
           ∧ length views = length (List.filter Repository.live (table w)).
Proof.
  intros Hnd.
  set (rows := merge_sort Repository.byId (List.filter Repository.live (table w))).
  change (run findAll w) with (run (mapM toDto rows) w).
  destruct (run_mapM_toDto rows w) as (views & w' & -> & _ & _ & _ & _ & Hall).
  exists views. split; [reflexivity |].
  assert (rows ≡ₚ List.filter Repository.live (table w)) as Hperm
    by apply (merge_sort_Permutation Repository.byId).
  split.
  - rewrite (view_ids rows views)
      by (eapply Forall2_impl; [exact Hall |]; intros s v (i & _ & ->); reflexivity).
    apply strictly_sorted.
    + apply StronglySorted_fmap with (R1 := Repository.byId).
      * intros a b Hab. exact Hab.
      * apply StronglySorted_merge_sort; apply _.
    + assert (map Stopwatch.id rows
              ≡ₚ map Stopwatch.id (List.filter Repository.live (table w))) as Hids
        by apply Permutation_map, Hperm.
      rewrite Hids. apply NoDup_ids_live, Hnd.
  - rewrite <- (Forall2_length _ _ _ Hall). apply Permutation_length, Hperm.
Qed.

(** X8 on a table with a deleted row between two live ones. *)
Lemma findAll_distinct_witness :
  ∃ views,
    fst (run findAll
           (worldOf [Stopwatch.mk 3 None "C" false 0 None;
                     Stopwatch.mk 2 (Some 5) "B" false 0 None;
                     Stopwatch.mk 1 None "A" false 4 None] 3 0 0 0))
    = inr views
    ∧ StronglySorted Z.lt (map StopwatchDto.id views)
    ∧ length views = 2%nat.
Proof.
  apply (findAll_distinct
           (worldOf [Stopwatch.mk 3 None "C" false 0 None;
                     Stopwatch.mk 2 (Some 5) "B" false 0 None;
                     Stopwatch.mk 1 None "A" false 4 None] 3 0 0 0)).
  cbn. apply (bool_decide_unpack _). vm_compute. exact I.
Defined.




(** ** The live view over time *)

(** X10: the live view of a running stopwatch follows the clock.  Read [k]
    whole seconds later, [calculateElapsed] returns exactly [k] more, and a
    later reading never returns less than an earlier one. *)
Theorem calculateElapsed_follows_clock (s : Stopwatch) (t : Instant) (w1 w2 : World) :
  Stopwatch.isRunning s = true →
  Stopwatch.startTime s = Some t →
  ∃ r1 r2,
    fst (run (calculateElapsed s) w1) = inr r1
    ∧ fst (run (calculateElapsed s) w2) = inr r2
    ∧ (upcoming w1 ≤ upcoming w2 → r1 ≤ r2)
    ∧ (∀ k, upcoming w2 = upcoming w1 + 1000 * k → r2 = r1 + k).
Proof.
  intros Hr Ht. rewrite !calculateElapsed_running by exact Hr.
  unfold runStart, secondsBetween. rewrite Ht. cbn [default from_option fst].
  change (id t) with t.
  eexists _, _. split; [reflexivity |]. split; [reflexivity |]. split.
  - intros Hle. apply Z.add_le_mono_l, Z.div_le_mono; lia.
  - intros k ->.
    replace (upcoming w1 + 1000 * k - t) with (upcoming w1 - t + k * 1000) by lia.
    rewrite Z.div_add by lia. lia.
Qed.

(** X10 on a stopwatch started at 500 ms, read at 2400 ms and at 7400 ms. *)
Lemma calculateElapsed_follows_clock_witness :
  ∃ r1 r2,
    fst (run (calculateElapsed (Stopwatch.mk 1 None "A" true 10 (Some 500)))
           (worldOf [] 0 2400 0 0)) = inr r1
    ∧ fst (run (calculateElapsed (Stopwatch.mk 1 None "A" true 10 (Some 500)))
             (worldOf [] 0 7400 0 0)) = inr r2
    ∧ r2 = r1 + 5.
Proof.
  destruct (calculateElapsed_follows_clock
              (Stopwatch.mk 1 None "A" true 10 (Some 500)) 500
              (worldOf [] 0 2400 0 0) (worldOf [] 0 7400 0 0) eq_refl eq_refl)
    as (r1 & r2 & H1 & H2 & _ & Hk).
  exists r1, r2. split; [exact H1 |]. split; [exact H2 |].
  apply Hk. reflexivity.
Defined.

(** * The controller: identifiers in the route *)

Lemma trimStart_app (ws rest : JsString) :
  Forall (λ c, Js.isWhiteSpace c = true) ws →
  Js.trimStart (ws ++ rest) = Js.trimStart rest.
Proof.
  induction 1 as [| c ws Hc _ IH]; [reflexivity |].
  cbn [app Js.trimStart]. rewrite Hc. exact IH.
Qed.

Lemma decimal_unit (d : Z) :
  0 ≤ d ≤ 9 →
  Js.isWhiteSpace (48 + d) = false
  ∧ ((48 + d =? 43) || (48 + d =? 45)) = false
  ∧ (48 + d =? 45) = false
  ∧ (48 + d =? 120) = false ∧ (48 + d =? 88) = false
  ∧ Js.radixDigit 10 (48 + d) = Some d.
Proof.
  intros Hd.
  assert (d = 0 ∨ d = 1 ∨ d = 2 ∨ d = 3 ∨ d = 4 ∨ d = 5 ∨ d = 6 ∨ d = 7
          ∨ d = 8 ∨ d = 9) as Hcases by lia.
  repeat (destruct Hcases as [-> | Hcases]; [repeat split |]).
  subst d. repeat split.
Qed.

Lemma hex_unit (h : Z) :
  0 ≤ h ≤ 15 →
  Js.radixDigit 16 (if h <? 10 then 48 + h else 87 + h) = Some h.
Proof.
  intros Hh.
  assert (h = 0 ∨ h = 1 ∨ h = 2 ∨ h = 3 ∨ h = 4 ∨ h = 5 ∨ h = 6 ∨ h = 7
          ∨ h = 8 ∨ h = 9 ∨ h = 10 ∨ h = 11 ∨ h = 12 ∨ h = 13 ∨ h = 14
          ∨ h = 15) as Hcases by lia.
  repeat (destruct Hcases as [-> | Hcases]; [reflexivity |]).
  subst h. reflexivity.
Qed.

Lemma digitsPrefix_decimal (ds : list Z) (tail : JsString) :
  Forall (λ d, 0 ≤ d ≤ 9) ds → stopsNumber 10 tail →
  Js.digitsPrefix 10 (decimalText ds ++ tail) = ds.
Proof.
  intros Hds Htail. induction Hds as [| d ds Hd _ IH].
  - destruct tail as [| c tail]; [reflexivity |].
    cbn in *. rewrite Htail. reflexivity.
  - cbn [decimalText map app Js.digitsPrefix].
    destruct (decimal_unit d Hd) as (_ & _ & _ & _ & _ & ->).
    f_equal. exact IH.
Qed.

Lemma digitsPrefix_hex (hs : list Z) (tail : JsString) :
  Forall (λ h, 0 ≤ h ≤ 15) hs → stopsNumber 16 tail →
  Js.digitsPrefix 16 (hexText hs ++ tail) = hs.
Proof.
  intros Hhs Htail. induction Hhs as [| h hs Hh _ IH].
  - destruct tail as [| c tail]; [reflexivity |].
    cbn in *. rewrite Htail. reflexivity.
  - cbn [hexText map app Js.digitsPrefix].
    rewrite (hex_unit h Hh). f_equal. exact IH.
Qed.

(** What [parseInt] makes of a run of decimal digits after white space. *)
Lemma parseInt_decimal (ws : JsString) (d : Z) (ds : list Z) (tail : JsString) :
  Forall (λ c, Js.isWhiteSpace c = true) ws →
  Forall (λ d, 0 ≤ d ≤ 9) (d :: ds) →
  stopsNumber 10 tail →
  match tail with c :: _ => c ≠ 120 ∧ c ≠ 88 | [] => True end →
  Js.parseInt (ws ++ decimalText (d :: ds) ++ tail) = Some (Js.mathInt 10 (d :: ds)).
Proof.
  intros Hws Hds Htail Hx.
  pose proof (digitsPrefix_decimal (d :: ds) tail Hds Htail) as Hprefix.
  apply Forall_cons in Hds as [Hd Hds].
  destruct (decimal_unit d Hd) as (Hspace & Hsign & Hminus & _ & _ & _).
  unfold Js.parseInt. rewrite trimStart_app by exact Hws.
  cbn [decimalText map app Js.trimStart] in *.
  rewrite Hspace, Hsign, Hminus.
  assert (match (decimalText ds ++ tail) with
          | c1 :: _ => (48 + d =? 48) && ((c1 =? 120) || (c1 =? 88))
          | [] => false
          end = false) as Hhex.
  { destruct ds as [| d2 ds].
    - destruct tail as [| c tail]; [reflexivity |]. cbn.
      destruct Hx as [H120 H88]. apply Z.eqb_neq in H120, H88.
      rewrite H120, H88. apply andb_false_r.
    - apply Forall_cons in Hds as [Hd2 _].
      destruct (decimal_unit d2 Hd2) as (_ & _ & _ & H120 & H88 & _).
      cbn. rewrite H120, H88. apply andb_false_r. }
  change (map (λ d0, 48 + d0) ds) with (decimalText ds) in *.
  remember (decimalText ds ++ tail) as rest eqn:Hrest.
  destruct rest as [| c1 rest].
  - rewrite Hprefix. f_equal. apply Z.mul_1_l.
  - rewrite Hhex. rewrite Hprefix. f_equal. apply Z.mul_1_l.
Qed.

Lemma parseInt_hex (ws : JsString) (x h : Z) (hs : list Z) (tail : JsString) :
  Forall (λ c, Js.isWhiteSpace c = true) ws →
  x = 120 ∨ x = 88 →
  Forall (λ h, 0 ≤ h ≤ 15) (h :: hs) →
  stopsNumber 16 tail →
  Js.parseInt (ws ++ 48 :: x :: hexText (h :: hs) ++ tail)
  = Some (Js.mathInt 16 (h :: hs)).
Proof.
  intros Hws Hx Hhs Htail.
  pose proof (digitsPrefix_hex (h :: hs) tail Hhs Htail) as Hprefix.
  unfold Js.parseInt. rewrite trimStart_app by exact Hws.
  cbn [Js.trimStart]. change (Js.isWhiteSpace 48) with false. cbn iota.
  change ((48 =? 43) || (48 =? 45)) with false. cbn iota.
  change (48 =? 45) with false. change (48 =? 48) with true.
  assert (((x =? 120) || (x =? 88)) = true) as ->
    by (destruct Hx as [-> | ->]; reflexivity).
  cbn [andb drop]. rewrite drop_0, Hprefix. f_equal. apply Z.mul_1_l.
Qed.

Section Guard.
Variables (id : JsString) (dto : UpdateStopwatchDto) (w : World).

(** The four guarded handlers, when the identifier is refused and when it
    goes through. *)
Lemma controller_refuses :
  StopwatchController.falsy (Js.parseInt id) = true →
  run (StopwatchController.start id) w = (inl BadRequestException, w)
  ∧ run (StopwatchController.stop id) w = (inl BadRequestException, w)
  ∧ run (StopwatchController.update id dto) w = (inl BadRequestException, w)
  ∧ run (StopwatchController.delete id) w = (inl BadRequestException, w).
Proof.
  intros H. unfold StopwatchController.start, StopwatchController.stop,
    StopwatchController.update, StopwatchController.delete.
  rewrite H. auto.
Qed.

Lemma controller_passes (n : Z) :
  Js.parseInt id = Some n → n ≠ 0 →
  run (StopwatchController.start id) w = run (start n) w
  ∧ run (StopwatchController.stop id) w = run (stop n) w
  ∧ run (StopwatchController.update id dto) w = run (update n dto) w
  ∧ run (StopwatchController.delete id) w = run (delete n) w.
Proof.
  intros H Hn. unfold StopwatchController.start, StopwatchController.stop,
    StopwatchController.update, StopwatchController.delete.
  rewrite H. cbn [StopwatchController.falsy default from_option].
  apply Z.eqb_neq in Hn. rewrite Hn. auto.
Qed.
End Guard.

(** X11: identifiers in the route are read leniently.  For a route
    parameter made of white space, a run of decimal digits and then anything
    that does not start with a digit or an [x] (["12"], [" 12"], ["12abc"],
    ["007"]), with a value [n] up to 2^53: when [n] is 0 the four handlers
    with an identifier throw BadRequest without touching the world; otherwise
    each does what the service does for identifier [n]. *)
Theorem controller_decimal_id (ws : JsString) (d : Z) (ds : list Z) (tail : JsString)
    (dto : UpdateStopwatchDto) (w : World) :
  Forall (λ c, Js.isWhiteSpace c = true) ws →
  Forall (λ d, 0 ≤ d ≤ 9) (d :: ds) →
  stopsNumber 10 tail →
  match tail with c :: _ => c ≠ 120 ∧ c ≠ 88 | [] => True end →
  Js.mathInt 10 (d :: ds) ≤ maxSafe →
  let id := ws ++ decimalText (d :: ds) ++ tail in
  let n := Js.mathInt 10 (d :: ds) in
  (n = 0 →
     run (StopwatchController.start id) w = (inl BadRequestException, w)
     ∧ run (StopwatchController.stop id) w = (inl BadRequestException, w)
     ∧ run (StopwatchController.update id dto) w = (inl BadRequestException, w)
     ∧ run (StopwatchController.delete id) w = (inl BadRequestException, w))
  ∧ (n ≠ 0 →
     run (StopwatchController.start id) w = run (start n) w
     ∧ run (StopwatchController.stop id) w = run (stop n) w
     ∧ run (StopwatchController.update id dto) w = run (update n dto) w
     ∧ run (StopwatchController.delete id) w = run (delete n) w).
Proof.
  intros Hws Hds Htail Hx _ id n.
  pose proof (parseInt_decimal ws d ds tail Hws Hds Htail Hx) as Hparse.
  fold id n in Hparse. split; intros Hn.
  - apply controller_refuses. rewrite Hparse, Hn. reflexivity.
  - apply controller_passes; assumption.
Qed.

(** X11 on [" 12abc"]: it starts stopwatch 12. *)
Lemma controller_decimal_id_witness :
  run (StopwatchController.start [32; 49; 50; 97; 98; 99])
      (worldOf [Stopwatch.mk 12 None "A" false 0 None] 12 0 0 0)
  = run (start 12) (worldOf [Stopwatch.mk 12 None "A" false 0 None] 12 0 0 0).
Proof.
  refine (proj1 (proj2 (controller_decimal_id [32] 1 [2] [97; 98; 99]
                          (UpdateStopwatchDto.mk None None)
                          (worldOf [Stopwatch.mk 12 None "A" false 0 None] 12 0 0 0)
                          _ _ _ _ _) _)).
  - repeat constructor.
  - repeat constructor; lia.
  - reflexivity.
  - split; discriminate.
  - unfold maxSafe. cbn. lia.
  - discriminate.
Defined.

(** X12: a route parameter with no number in it is refused.  When, after
    its leading white space, the parameter is empty or starts with a code
    unit that is neither a sign nor a decimal digit (["abc"], [""], ["x1"]),
    the four handlers with an identifier throw BadRequest and the world is
    untouched: the store is not read. *)
Theorem controller_rejects_text (ws rest : JsString)
    (dto : UpdateStopwatchDto) (w : World) :
  Forall (λ c, Js.isWhiteSpace c = true) ws →
  match rest with
  | [] => True
  | c :: _ => Js.isWhiteSpace c = false ∧ c ≠ 43 ∧ c ≠ 45
              ∧ Js.radixDigit 10 c = None
  end →
  run (StopwatchController.start (ws ++ rest)) w = (inl BadRequestException, w)
  ∧ run (StopwatchController.stop (ws ++ rest)) w = (inl BadRequestException, w)
  ∧ run (StopwatchController.update (ws ++ rest) dto) w = (inl BadRequestException, w)
  ∧ run (StopwatchController.delete (ws ++ rest)) w = (inl BadRequestException, w).
Proof.
  intros Hws Hrest. apply controller_refuses.
  unfold Js.parseInt. rewrite trimStart_app by exact Hws.
  destruct rest as [| c rest]; [reflexivity |].
  destruct Hrest as (Hspace & Hplus & Hminus & Hdigit).
  cbn [Js.trimStart]. rewrite Hspace.
  apply Z.eqb_neq in Hplus, Hminus. rewrite Hplus, Hminus. cbn [orb].
  assert ((c =? 48) = false) as H48.
  { apply Z.eqb_neq. intros ->. discriminate Hdigit. }
  rewrite H48. cbn [andb].
  assert (match rest with _ :: _ => false | [] => false end = false) as ->
    by (destruct rest; reflexivity).
  cbn [Js.digitsPrefix]. rewrite Hdigit. reflexivity.
Qed.

(** X12 on ["abc"]. *)
Lemma controller_rejects_text_witness :
  run (StopwatchController.start [97; 98; 99])
      (worldOf [Stopwatch.mk 1 None "A" false 0 None] 1 0 0 0)
  = (inl BadRequestException, worldOf [Stopwatch.mk 1 None "A" false 0 None] 1 0 0 0).
Proof.
  refine (proj1 (controller_rejects_text [] [97; 98; 99]
                   (UpdateStopwatchDto.mk None None)
                   (worldOf [Stopwatch.mk 1 None "A" false 0 None] 1 0 0 0) _ _)).
  - constructor.
  - repeat split; discriminate.
Defined.

(** X13: a route parameter that starts with [0x] or [0X] is read in base 16.
    For white space, the prefix, a run of hexadecimal digits and then
    anything that does not start with one, with a non-zero value [n] up to
    2^53, each of the four handlers does what the service does for
    identifier [n]: ["0x10"] addresses stopwatch 16. *)
Theorem controller_hex_id (ws : JsString) (x h : Z) (hs : list Z) (tail : JsString)
    (dto : UpdateStopwatchDto) (w : World) :
  Forall (λ c, Js.isWhiteSpace c = true) ws →
  x = 120 ∨ x = 88 →
  Forall (λ h, 0 ≤ h ≤ 15) (h :: hs) →
  stopsNumber 16 tail →
  Js.mathInt 16 (h :: hs) ≤ maxSafe →
  Js.mathInt 16 (h :: hs) ≠ 0 →
  let id := ws ++ 48 :: x :: hexText (h :: hs) ++ tail in
  let n := Js.mathInt 16 (h :: hs) in
  run (StopwatchController.start id) w = run (start n) w
  ∧ run (StopwatchController.stop id) w = run (stop n) w
  ∧ run (StopwatchController.update id dto) w = run (update n dto) w
  ∧ run (StopwatchController.delete id) w = run (delete n) w.
Proof.
  intros Hws Hx Hhs Htail _ Hn id n.
  apply controller_passes; [| exact Hn].
  apply parseInt_hex; assumption.
Qed.

(** X13 on ["0x10"]: it stops stopwatch 16. *)
Lemma controller_hex_id_witness :
  run (StopwatchController.stop [48; 120; 49; 48])
      (worldOf [Stopwatch.mk 16 None "P" true 0 (Some 0)] 16 3000 0 0)
  = run (stop 16) (worldOf [Stopwatch.mk 16 None "P" true 0 (Some 0)] 16 3000 0 0).
Proof.
  refine (proj1 (proj2 (controller_hex_id [] 120 1 [0] []
                          (UpdateStopwatchDto.mk None None)
                          (worldOf [Stopwatch.mk 16 None "P" true 0 (Some 0)] 16 3000 0 0)
                          _ _ _ _ _ _))).
  - constructor.
  - left. reflexivity.
  - repeat constructor; lia.
  - exact I.
  - unfold maxSafe. cbn. lia.
  - discriminate.
Defined.

(** * Rows are kept *)

(** X14: no request removes a row.  After any sequence of requests the
    identifiers of the rows that were in the table are still there, in the
    same order, followed by one new identifier for each create: a delete only
    marks its row. *)
Theorem rows_never_removed (ops : list Operation) (w : World) :
  ∃ added,
    map Stopwatch.id (table (performAll ops w)) = map Stopwatch.id (table w) ++ added
    ∧ length added
      = length (List.filter (λ op, match op with Create _ => true | _ => false end) ops).
Proof.
  revert w. induction ops as [| op ops IH]; intros w.
  - exists []. split; [symmetry; apply app_nil_r | reflexivity].
  - rewrite performAll_cons. destruct (IH (perform op w)) as (added & Hids & Hlen).
    rewrite perform_ids in Hids.
    destruct op as [| dto | k | k | k dto | k]; cbn [List.filter];
      try (exists added; split; [exact Hids | exact Hlen]).
    exists (sequence w + 1 :: added). split.
    + rewrite Hids, <- app_assoc. reflexivity.
    + cbn. rewrite Hlen. reflexivity.
Qed.
